(** * ScrapIt bootstrap layer: settings coercion, path validation, logging
      policy and service assembly ([src/scrapit/main.py])

    A shallow embedding of [setup_logging], [create_app] and [run], together
    with the CPython built-ins they call ([str.split], [str.strip],
    [str.lower], [str.isdigit], [int], [float]).  Python strings are lists of
    Unicode code points, Python [int] is [Z], Python [float] is an IEEE-754
    binary64 value ([spec_float] at precision 53), and the settings dictionary
    is a finite map.  The built-ins follow CPython 3.11; the character tables
    are those of the Unicode Character Database 14.0.0 that CPython 3.11
    ships. *)

From Stdlib Require Import ZArith NArith Bool Lia String Ascii.
From Stdlib Require Import Floats.SpecFloat.
From stdpp Require Import base option list gmap.

Local Open Scope Z_scope.

(** ** Unicode character data *)

Module Unicode.

(** Each table is a list of inclusive code-point ranges. *)

(** Characters for which [Py_UNICODE_ISSPACE] holds (bidirectional class WS,
    B or S, or general category Zs); [str.isspace] and [str.strip] use it. *)
Definition space_ranges : list (N * N) :=
  [ (9, 13); (28, 32); (133, 133); (160, 160); (5760, 5760); (8192, 8202);
    (8232, 8233); (8239, 8239); (8287, 8287); (12288, 12288) ]%N.

(** Characters with the DIGIT flag (Numeric_Type Decimal or Digit):
    [str.isdigit] tests it.  The table is a strict superset of
    [decimal_ranges]: superscripts, circled digits and the like are digits
    without being decimals. *)
Definition digit_ranges : list (N * N) :=
  [ (48, 57); (178, 179); (185, 185); (1632, 1641); (1776, 1785); (1984, 1993);
    (2406, 2415); (2534, 2543); (2662, 2671); (2790, 2799); (2918, 2927); (3046, 3055);
    (3174, 3183); (3302, 3311); (3430, 3439); (3558, 3567); (3664, 3673); (3792, 3801);
    (3872, 3881); (4160, 4169); (4240, 4249); (4969, 4977); (6112, 6121); (6160, 6169);
    (6470, 6479); (6608, 6618); (6784, 6793); (6800, 6809); (6992, 7001); (7088, 7097);
    (7232, 7241); (7248, 7257); (8304, 8304); (8308, 8313); (8320, 8329); (9312, 9320);
    (9332, 9340); (9352, 9360); (9450, 9450); (9461, 9469); (9471, 9471); (10102, 10110);
    (10112, 10120); (10122, 10130); (42528, 42537); (43216, 43225); (43264, 43273); (43472, 43481);
    (43504, 43513); (43600, 43609); (44016, 44025); (65296, 65305); (66720, 66729); (68160, 68163);
    (68912, 68921); (69216, 69224); (69714, 69722); (69734, 69743); (69872, 69881); (69942, 69951);
    (70096, 70105); (70384, 70393); (70736, 70745); (70864, 70873); (71248, 71257); (71360, 71369);
    (71472, 71481); (71904, 71913); (72016, 72025); (72784, 72793); (73040, 73049); (73120, 73129);
    (92768, 92777); (92864, 92873); (93008, 93017); (120782, 120831); (123200, 123209); (123632, 123641);
    (125264, 125273); (127232, 127242); (130032, 130041) ]%N.

(** Characters of general category Nd.  Every range starts at a digit zero
    and holds whole decades, so the decimal value of [c] in a range starting
    at [lo] is [(c - lo) mod 10] ([Py_UNICODE_TODECIMAL]). *)
Definition decimal_ranges : list (N * N) :=
  [ (48, 57); (1632, 1641); (1776, 1785); (1984, 1993); (2406, 2415); (2534, 2543);
    (2662, 2671); (2790, 2799); (2918, 2927); (3046, 3055); (3174, 3183); (3302, 3311);
    (3430, 3439); (3558, 3567); (3664, 3673); (3792, 3801); (3872, 3881); (4160, 4169);
    (4240, 4249); (6112, 6121); (6160, 6169); (6470, 6479); (6608, 6617); (6784, 6793);
    (6800, 6809); (6992, 7001); (7088, 7097); (7232, 7241); (7248, 7257); (42528, 42537);
    (43216, 43225); (43264, 43273); (43472, 43481); (43504, 43513); (43600, 43609); (44016, 44025);
    (65296, 65305); (66720, 66729); (68912, 68921); (69734, 69743); (69872, 69881); (69942, 69951);
    (70096, 70105); (70384, 70393); (70736, 70745); (70864, 70873); (71248, 71257); (71360, 71369);
    (71472, 71481); (71904, 71913); (72016, 72025); (72784, 72793); (73040, 73049); (73120, 73129);
    (92768, 92777); (92864, 92873); (93008, 93017); (120782, 120831); (123200, 123209); (123632, 123641);
    (125264, 125273); (130032, 130041) ]%N.

(** Simple lowercase mappings, as runs [(lo, hi, step, delta)]: a code point
    [c] with [lo <= c <= hi] and [(c - lo) mod step = 0] maps to [c + delta]. *)
Definition lower_runs : list (N * N * N * Z) :=
  [ (65%N, 90%N, 1%N, 32); (192%N, 214%N, 1%N, 32); (216%N, 222%N, 1%N, 32); (256%N, 302%N, 2%N, 1);
    (306%N, 310%N, 2%N, 1); (313%N, 327%N, 2%N, 1); (330%N, 374%N, 2%N, 1); (376%N, 376%N, 1%N, (-121));
    (377%N, 381%N, 2%N, 1); (385%N, 385%N, 1%N, 210); (386%N, 388%N, 2%N, 1); (390%N, 390%N, 1%N, 206);
    (391%N, 391%N, 1%N, 1); (393%N, 394%N, 1%N, 205); (395%N, 395%N, 1%N, 1); (398%N, 398%N, 1%N, 79);
    (399%N, 399%N, 1%N, 202); (400%N, 400%N, 1%N, 203); (401%N, 401%N, 1%N, 1); (403%N, 403%N, 1%N, 205);
    (404%N, 404%N, 1%N, 207); (406%N, 406%N, 1%N, 211); (407%N, 407%N, 1%N, 209); (408%N, 408%N, 1%N, 1);
    (412%N, 412%N, 1%N, 211); (413%N, 413%N, 1%N, 213); (415%N, 415%N, 1%N, 214); (416%N, 420%N, 2%N, 1);
    (422%N, 422%N, 1%N, 218); (423%N, 423%N, 1%N, 1); (425%N, 425%N, 1%N, 218); (428%N, 428%N, 1%N, 1);
    (430%N, 430%N, 1%N, 218); (431%N, 431%N, 1%N, 1); (433%N, 434%N, 1%N, 217); (435%N, 437%N, 2%N, 1);
    (439%N, 439%N, 1%N, 219); (440%N, 440%N, 1%N, 1); (444%N, 444%N, 1%N, 1); (452%N, 452%N, 1%N, 2);
    (453%N, 453%N, 1%N, 1); (455%N, 455%N, 1%N, 2); (456%N, 456%N, 1%N, 1); (458%N, 458%N, 1%N, 2);
    (459%N, 475%N, 2%N, 1); (478%N, 494%N, 2%N, 1); (497%N, 497%N, 1%N, 2); (498%N, 500%N, 2%N, 1);
    (502%N, 502%N, 1%N, (-97)); (503%N, 503%N, 1%N, (-56)); (504%N, 542%N, 2%N, 1); (544%N, 544%N, 1%N, (-130));
    (546%N, 562%N, 2%N, 1); (570%N, 570%N, 1%N, 10795); (571%N, 571%N, 1%N, 1); (573%N, 573%N, 1%N, (-163));
    (574%N, 574%N, 1%N, 10792); (577%N, 577%N, 1%N, 1); (579%N, 579%N, 1%N, (-195)); (580%N, 580%N, 1%N, 69);
    (581%N, 581%N, 1%N, 71); (582%N, 590%N, 2%N, 1); (880%N, 882%N, 2%N, 1); (886%N, 886%N, 1%N, 1);
    (895%N, 895%N, 1%N, 116); (902%N, 902%N, 1%N, 38); (904%N, 906%N, 1%N, 37); (908%N, 908%N, 1%N, 64);
    (910%N, 911%N, 1%N, 63); (913%N, 929%N, 1%N, 32); (931%N, 939%N, 1%N, 32); (975%N, 975%N, 1%N, 8);
    (984%N, 1006%N, 2%N, 1); (1012%N, 1012%N, 1%N, (-60)); (1015%N, 1015%N, 1%N, 1); (1017%N, 1017%N, 1%N, (-7));
    (1018%N, 1018%N, 1%N, 1); (1021%N, 1023%N, 1%N, (-130)); (1024%N, 1039%N, 1%N, 80); (1040%N, 1071%N, 1%N, 32);
    (1120%N, 1152%N, 2%N, 1); (1162%N, 1214%N, 2%N, 1); (1216%N, 1216%N, 1%N, 15); (1217%N, 1229%N, 2%N, 1);
    (1232%N, 1326%N, 2%N, 1); (1329%N, 1366%N, 1%N, 48); (4256%N, 4293%N, 1%N, 7264); (4295%N, 4295%N, 1%N, 7264);
    (4301%N, 4301%N, 1%N, 7264); (5024%N, 5103%N, 1%N, 38864); (5104%N, 5109%N, 1%N, 8); (7312%N, 7354%N, 1%N, (-3008));
    (7357%N, 7359%N, 1%N, (-3008)); (7680%N, 7828%N, 2%N, 1); (7838%N, 7838%N, 1%N, (-7615)); (7840%N, 7934%N, 2%N, 1);
    (7944%N, 7951%N, 1%N, (-8)); (7960%N, 7965%N, 1%N, (-8)); (7976%N, 7983%N, 1%N, (-8)); (7992%N, 7999%N, 1%N, (-8));
    (8008%N, 8013%N, 1%N, (-8)); (8025%N, 8031%N, 2%N, (-8)); (8040%N, 8047%N, 1%N, (-8)); (8072%N, 8079%N, 1%N, (-8));
    (8088%N, 8095%N, 1%N, (-8)); (8104%N, 8111%N, 1%N, (-8)); (8120%N, 8121%N, 1%N, (-8)); (8122%N, 8123%N, 1%N, (-74));
    (8124%N, 8124%N, 1%N, (-9)); (8136%N, 8139%N, 1%N, (-86)); (8140%N, 8140%N, 1%N, (-9)); (8152%N, 8153%N, 1%N, (-8));
    (8154%N, 8155%N, 1%N, (-100)); (8168%N, 8169%N, 1%N, (-8)); (8170%N, 8171%N, 1%N, (-112)); (8172%N, 8172%N, 1%N, (-7));
    (8184%N, 8185%N, 1%N, (-128)); (8186%N, 8187%N, 1%N, (-126)); (8188%N, 8188%N, 1%N, (-9)); (8486%N, 8486%N, 1%N, (-7517));
    (8490%N, 8490%N, 1%N, (-8383)); (8491%N, 8491%N, 1%N, (-8262)); (8498%N, 8498%N, 1%N, 28); (8544%N, 8559%N, 1%N, 16);
    (8579%N, 8579%N, 1%N, 1); (9398%N, 9423%N, 1%N, 26); (11264%N, 11311%N, 1%N, 48); (11360%N, 11360%N, 1%N, 1);
    (11362%N, 11362%N, 1%N, (-10743)); (11363%N, 11363%N, 1%N, (-3814)); (11364%N, 11364%N, 1%N, (-10727)); (11367%N, 11371%N, 2%N, 1);
    (11373%N, 11373%N, 1%N, (-10780)); (11374%N, 11374%N, 1%N, (-10749)); (11375%N, 11375%N, 1%N, (-10783)); (11376%N, 11376%N, 1%N, (-10782));
    (11378%N, 11378%N, 1%N, 1); (11381%N, 11381%N, 1%N, 1); (11390%N, 11391%N, 1%N, (-10815)); (11392%N, 11490%N, 2%N, 1);
    (11499%N, 11501%N, 2%N, 1); (11506%N, 11506%N, 1%N, 1); (42560%N, 42604%N, 2%N, 1); (42624%N, 42650%N, 2%N, 1);
    (42786%N, 42798%N, 2%N, 1); (42802%N, 42862%N, 2%N, 1); (42873%N, 42875%N, 2%N, 1); (42877%N, 42877%N, 1%N, (-35332));
    (42878%N, 42886%N, 2%N, 1); (42891%N, 42891%N, 1%N, 1); (42893%N, 42893%N, 1%N, (-42280)); (42896%N, 42898%N, 2%N, 1);
    (42902%N, 42920%N, 2%N, 1); (42922%N, 42922%N, 1%N, (-42308)); (42923%N, 42923%N, 1%N, (-42319)); (42924%N, 42924%N, 1%N, (-42315));
    (42925%N, 42925%N, 1%N, (-42305)); (42926%N, 42926%N, 1%N, (-42308)); (42928%N, 42928%N, 1%N, (-42258)); (42929%N, 42929%N, 1%N, (-42282));
    (42930%N, 42930%N, 1%N, (-42261)); (42931%N, 42931%N, 1%N, 928); (42932%N, 42946%N, 2%N, 1); (42948%N, 42948%N, 1%N, (-48));
    (42949%N, 42949%N, 1%N, (-42307)); (42950%N, 42950%N, 1%N, (-35384)); (42951%N, 42953%N, 2%N, 1); (42960%N, 42960%N, 1%N, 1);
    (42966%N, 42968%N, 2%N, 1); (42997%N, 42997%N, 1%N, 1); (65313%N, 65338%N, 1%N, 32); (66560%N, 66599%N, 1%N, 40);
    (66736%N, 66771%N, 1%N, 40); (66928%N, 66938%N, 1%N, 39); (66940%N, 66954%N, 1%N, 39); (66956%N, 66962%N, 1%N, 39);
    (66964%N, 66965%N, 1%N, 39); (68736%N, 68786%N, 1%N, 64); (71840%N, 71871%N, 1%N, 32); (93760%N, 93791%N, 1%N, 32);
    (125184%N, 125217%N, 1%N, 34) ].

(** Characters with the derived property Cased. *)
Definition cased_ranges : list (N * N) :=
  [ (65, 90); (97, 122); (170, 170); (181, 181); (186, 186); (192, 214);
    (216, 246); (248, 442); (444, 447); (452, 659); (661, 696); (704, 705);
    (736, 740); (837, 837); (880, 883); (886, 887); (890, 893); (895, 895);
    (902, 902); (904, 906); (908, 908); (910, 929); (931, 1013); (1015, 1153);
    (1162, 1327); (1329, 1366); (1376, 1416); (4256, 4293); (4295, 4295); (4301, 4301);
    (4304, 4346); (4349, 4351); (5024, 5109); (5112, 5117); (7296, 7304); (7312, 7354);
    (7357, 7359); (7424, 7615); (7680, 7957); (7960, 7965); (7968, 8005); (8008, 8013);
    (8016, 8023); (8025, 8025); (8027, 8027); (8029, 8029); (8031, 8061); (8064, 8116);
    (8118, 8124); (8126, 8126); (8130, 8132); (8134, 8140); (8144, 8147); (8150, 8155);
    (8160, 8172); (8178, 8180); (8182, 8188); (8305, 8305); (8319, 8319); (8336, 8348);
    (8450, 8450); (8455, 8455); (8458, 8467); (8469, 8469); (8473, 8477); (8484, 8484);
    (8486, 8486); (8488, 8488); (8490, 8493); (8495, 8500); (8505, 8505); (8508, 8511);
    (8517, 8521); (8526, 8526); (8544, 8575); (8579, 8580); (9398, 9449); (11264, 11492);
    (11499, 11502); (11506, 11507); (11520, 11557); (11559, 11559); (11565, 11565); (42560, 42605);
    (42624, 42653); (42786, 42887); (42891, 42894); (42896, 42954); (42960, 42961); (42963, 42963);
    (42965, 42969); (42997, 42998); (43000, 43002); (43824, 43866); (43868, 43880); (43888, 43967);
    (64256, 64262); (64275, 64279); (65313, 65338); (65345, 65370); (66560, 66639); (66736, 66771);
    (66776, 66811); (66928, 66938); (66940, 66954); (66956, 66962); (66964, 66965); (66967, 66977);
    (66979, 66993); (66995, 67001); (67003, 67004); (67456, 67456); (67459, 67461); (67463, 67504);
    (67506, 67514); (68736, 68786); (68800, 68850); (71840, 71903); (93760, 93823); (119808, 119892);
    (119894, 119964); (119966, 119967); (119970, 119970); (119973, 119974); (119977, 119980); (119982, 119993);
    (119995, 119995); (119997, 120003); (120005, 120069); (120071, 120074); (120077, 120084); (120086, 120092);
    (120094, 120121); (120123, 120126); (120128, 120132); (120134, 120134); (120138, 120144); (120146, 120485);
    (120488, 120512); (120514, 120538); (120540, 120570); (120572, 120596); (120598, 120628); (120630, 120654);
    (120656, 120686); (120688, 120712); (120714, 120744); (120746, 120770); (120772, 120779); (122624, 122633);
    (122635, 122654); (125184, 125251); (127280, 127305); (127312, 127337); (127344, 127369) ]%N.

(** Characters with the derived property Case_Ignorable. *)
Definition case_ignorable_ranges : list (N * N) :=
  [ (39, 39); (46, 46); (58, 58); (94, 94); (96, 96); (168, 168);
    (173, 173); (175, 175); (180, 180); (183, 184); (688, 879); (884, 885);
    (890, 890); (900, 901); (903, 903); (1155, 1161); (1369, 1369); (1375, 1375);
    (1425, 1469); (1471, 1471); (1473, 1474); (1476, 1477); (1479, 1479); (1524, 1524);
    (1536, 1541); (1552, 1562); (1564, 1564); (1600, 1600); (1611, 1631); (1648, 1648);
    (1750, 1757); (1759, 1768); (1770, 1773); (1807, 1807); (1809, 1809); (1840, 1866);
    (1958, 1968); (2027, 2037); (2042, 2042); (2045, 2045); (2070, 2093); (2137, 2139);
    (2184, 2184); (2192, 2193); (2200, 2207); (2249, 2306); (2362, 2362); (2364, 2364);
    (2369, 2376); (2381, 2381); (2385, 2391); (2402, 2403); (2417, 2417); (2433, 2433);
    (2492, 2492); (2497, 2500); (2509, 2509); (2530, 2531); (2558, 2558); (2561, 2562);
    (2620, 2620); (2625, 2626); (2631, 2632); (2635, 2637); (2641, 2641); (2672, 2673);
    (2677, 2677); (2689, 2690); (2748, 2748); (2753, 2757); (2759, 2760); (2765, 2765);
    (2786, 2787); (2810, 2815); (2817, 2817); (2876, 2876); (2879, 2879); (2881, 2884);
    (2893, 2893); (2901, 2902); (2914, 2915); (2946, 2946); (3008, 3008); (3021, 3021);
    (3072, 3072); (3076, 3076); (3132, 3132); (3134, 3136); (3142, 3144); (3146, 3149);
    (3157, 3158); (3170, 3171); (3201, 3201); (3260, 3260); (3263, 3263); (3270, 3270);
    (3276, 3277); (3298, 3299); (3328, 3329); (3387, 3388); (3393, 3396); (3405, 3405);
    (3426, 3427); (3457, 3457); (3530, 3530); (3538, 3540); (3542, 3542); (3633, 3633);
    (3636, 3642); (3654, 3662); (3761, 3761); (3764, 3772); (3782, 3782); (3784, 3789);
    (3864, 3865); (3893, 3893); (3895, 3895); (3897, 3897); (3953, 3966); (3968, 3972);
    (3974, 3975); (3981, 3991); (3993, 4028); (4038, 4038); (4141, 4144); (4146, 4151);
    (4153, 4154); (4157, 4158); (4184, 4185); (4190, 4192); (4209, 4212); (4226, 4226);
    (4229, 4230); (4237, 4237); (4253, 4253); (4348, 4348); (4957, 4959); (5906, 5908);
    (5938, 5939); (5970, 5971); (6002, 6003); (6068, 6069); (6071, 6077); (6086, 6086);
    (6089, 6099); (6103, 6103); (6109, 6109); (6155, 6159); (6211, 6211); (6277, 6278);
    (6313, 6313); (6432, 6434); (6439, 6440); (6450, 6450); (6457, 6459); (6679, 6680);
    (6683, 6683); (6742, 6742); (6744, 6750); (6752, 6752); (6754, 6754); (6757, 6764);
    (6771, 6780); (6783, 6783); (6823, 6823); (6832, 6862); (6912, 6915); (6964, 6964);
    (6966, 6970); (6972, 6972); (6978, 6978); (7019, 7027); (7040, 7041); (7074, 7077);
    (7080, 7081); (7083, 7085); (7142, 7142); (7144, 7145); (7149, 7149); (7151, 7153);
    (7212, 7219); (7222, 7223); (7288, 7293); (7376, 7378); (7380, 7392); (7394, 7400);
    (7405, 7405); (7412, 7412); (7416, 7417); (7468, 7530); (7544, 7544); (7579, 7679);
    (8125, 8125); (8127, 8129); (8141, 8143); (8157, 8159); (8173, 8175); (8189, 8190);
    (8203, 8207); (8216, 8217); (8228, 8228); (8231, 8231); (8234, 8238); (8288, 8292);
    (8294, 8303); (8305, 8305); (8319, 8319); (8336, 8348); (8400, 8432); (11388, 11389);
    (11503, 11505); (11631, 11631); (11647, 11647); (11744, 11775); (11823, 11823); (12293, 12293);
    (12330, 12333); (12337, 12341); (12347, 12347); (12441, 12446); (12540, 12542); (40981, 40981);
    (42232, 42237); (42508, 42508); (42607, 42610); (42612, 42621); (42623, 42623); (42652, 42655);
    (42736, 42737); (42752, 42785); (42864, 42864); (42888, 42890); (42994, 42996); (43000, 43001);
    (43010, 43010); (43014, 43014); (43019, 43019); (43045, 43046); (43052, 43052); (43204, 43205);
    (43232, 43249); (43263, 43263); (43302, 43309); (43335, 43345); (43392, 43394); (43443, 43443);
    (43446, 43449); (43452, 43453); (43471, 43471); (43493, 43494); (43561, 43566); (43569, 43570);
    (43573, 43574); (43587, 43587); (43596, 43596); (43632, 43632); (43644, 43644); (43696, 43696);
    (43698, 43700); (43703, 43704); (43710, 43711); (43713, 43713); (43741, 43741); (43756, 43757);
    (43763, 43764); (43766, 43766); (43867, 43871); (43881, 43883); (44005, 44005); (44008, 44008);
    (44013, 44013); (64286, 64286); (64434, 64450); (65024, 65039); (65043, 65043); (65056, 65071);
    (65106, 65106); (65109, 65109); (65279, 65279); (65287, 65287); (65294, 65294); (65306, 65306);
    (65342, 65342); (65344, 65344); (65392, 65392); (65438, 65439); (65507, 65507); (65529, 65531);
    (66045, 66045); (66272, 66272); (66422, 66426); (67456, 67461); (67463, 67504); (67506, 67514);
    (68097, 68099); (68101, 68102); (68108, 68111); (68152, 68154); (68159, 68159); (68325, 68326);
    (68900, 68903); (69291, 69292); (69446, 69456); (69506, 69509); (69633, 69633); (69688, 69702);
    (69744, 69744); (69747, 69748); (69759, 69761); (69811, 69814); (69817, 69818); (69821, 69821);
    (69826, 69826); (69837, 69837); (69888, 69890); (69927, 69931); (69933, 69940); (70003, 70003);
    (70016, 70017); (70070, 70078); (70089, 70092); (70095, 70095); (70191, 70193); (70196, 70196);
    (70198, 70199); (70206, 70206); (70367, 70367); (70371, 70378); (70400, 70401); (70459, 70460);
    (70464, 70464); (70502, 70508); (70512, 70516); (70712, 70719); (70722, 70724); (70726, 70726);
    (70750, 70750); (70835, 70840); (70842, 70842); (70847, 70848); (70850, 70851); (71090, 71093);
    (71100, 71101); (71103, 71104); (71132, 71133); (71219, 71226); (71229, 71229); (71231, 71232);
    (71339, 71339); (71341, 71341); (71344, 71349); (71351, 71351); (71453, 71455); (71458, 71461);
    (71463, 71467); (71727, 71735); (71737, 71738); (71995, 71996); (71998, 71998); (72003, 72003);
    (72148, 72151); (72154, 72155); (72160, 72160); (72193, 72202); (72243, 72248); (72251, 72254);
    (72263, 72263); (72273, 72278); (72281, 72283); (72330, 72342); (72344, 72345); (72752, 72758);
    (72760, 72765); (72767, 72767); (72850, 72871); (72874, 72880); (72882, 72883); (72885, 72886);
    (73009, 73014); (73018, 73018); (73020, 73021); (73023, 73029); (73031, 73031); (73104, 73105);
    (73109, 73109); (73111, 73111); (73459, 73460); (78896, 78904); (92912, 92916); (92976, 92982);
    (92992, 92995); (94031, 94031); (94095, 94111); (94176, 94177); (94179, 94180); (110576, 110579);
    (110581, 110587); (110589, 110590); (113821, 113822); (113824, 113827); (118528, 118573); (118576, 118598);
    (119143, 119145); (119155, 119170); (119173, 119179); (119210, 119213); (119362, 119364); (121344, 121398);
    (121403, 121452); (121461, 121461); (121476, 121476); (121499, 121503); (121505, 121519); (122880, 122886);
    (122888, 122904); (122907, 122913); (122915, 122916); (122918, 122922); (123184, 123197); (123566, 123566);
    (123628, 123631); (125136, 125142); (125252, 125259); (127995, 127999); (917505, 917505); (917536, 917631);
    (917760, 917999) ]%N.

Definition in_ranges (c : N) (t : list (N * N)) : bool :=
  existsb (fun r => (fst r <=? c)%N && (c <=? snd r)%N) t.

Definition isspace (c : N) : bool := in_ranges c space_ranges.
Definition isdigit (c : N) : bool := in_ranges c digit_ranges.
Definition is_cased (c : N) : bool := in_ranges c cased_ranges.
Definition is_case_ignorable (c : N) : bool :=
  in_ranges c case_ignorable_ranges.

(** [Py_UNICODE_TODECIMAL]: the decimal value of a character of category Nd,
    [None] (the C function's -1) for every other character. *)
Definition to_decimal (c : N) : option N :=
  match List.find (fun r => (fst r <=? c)%N && (c <=? snd r)%N) decimal_ranges with
  | Some r => Some ((c - fst r) mod 10)%N
  | None => None
  end.

Definition in_run (c : N) (r : N * N * N * Z) : bool :=
  let '(lo, hi, step, _) := r in
  (lo <=? c)%N && (c <=? hi)%N && ((c - lo) mod step =? 0)%N.

(** [_PyUnicode_ToLowerFull]: the full lowercase mapping.  U+0130 is the only
    character whose lowercase form has two code points. *)
Definition to_lower_full (c : N) : list N :=
  if (c =? 304)%N then [105; 775]%N
  else match List.find (in_run c) lower_runs with
       | Some r => [Z.to_N (Z.of_N c + snd r)]
       | None => [c]
       end.

End Unicode.

(** ** Python strings *)

(** A Python string is the list of its code points. *)
Abbreviation str := (list N) (only parsing).

(** A literal of the source, given by its ASCII text. *)
Definition lit (s : string) : str :=
  List.map N_of_ascii (list_ascii_of_string s).

Fixpoint starts_with (pre s : str) : bool :=
  match pre, s with
  | [], _ => true
  | _ :: _, [] => false
  | a :: pre', b :: s' => (a =? b)%N && starts_with pre' s'
  end.

(** [sub in s]: substring test. *)
Fixpoint str_in (sub s : str) : bool :=
  starts_with sub s ||
  match s with
  | [] => false
  | _ :: s' => str_in sub s'
  end.

(** [s.split(sep)] for a one-character separator: every occurrence cuts, and
    the result always has one more field than there are separators. *)
Fixpoint split (sep : N) (s : str) : list str :=
  match s with
  | [] => [[]]
  | c :: s' =>
      if (c =? sep)%N then [] :: split sep s'
      else match split sep s' with
           | field :: fields => (c :: field) :: fields
           | [] => [[c]]
           end
  end.

(** [s.split(sep, 1)]: at most one cut, at the first occurrence. *)
Fixpoint split1 (sep : N) (s : str) : list str :=
  match s with
  | [] => [[]]
  | c :: s' =>
      if (c =? sep)%N then [[]; s']
      else match split1 sep s' with
           | field :: fields => (c :: field) :: fields
           | [] => [[c]]
           end
  end.

Fixpoint drop_while {A} (p : A -> bool) (l : list A) : list A :=
  match l with
  | [] => []
  | x :: l' => if p x then drop_while p l' else l
  end.

Fixpoint take_while {A} (p : A -> bool) (l : list A) : list A :=
  match l with
  | [] => []
  | x :: l' => if p x then x :: take_while p l' else []
  end.

Definition lstrip (s : str) : str := drop_while Unicode.isspace s.
Definition rstrip (s : str) : str := rev (drop_while Unicode.isspace (rev s)).

(** [s.strip()] *)
Definition strip (s : str) : str := rstrip (lstrip s).

(** [s.isdigit()]: non-empty and every character carries the DIGIT flag. *)
Definition isdigit (s : str) : bool :=
  match s with
  | [] => false
  | _ => forallb Unicode.isdigit s
  end.

(** [handle_capital_sigma] of CPython's [unicodeobject.c]: a capital sigma is
    lowercased to the final form U+03C2 when a cased letter precedes it and
    none follows, case-ignorable characters being skipped on both sides.
    [before] holds the characters to the left, nearest first. *)
Definition handle_capital_sigma (before after : str) : N :=
  let final_sigma :=
    match drop_while Unicode.is_case_ignorable before with
    | c :: _ =>
        Unicode.is_cased c &&
        match drop_while Unicode.is_case_ignorable after with
        | c' :: _ => negb (Unicode.is_cased c')
        | [] => true
        end
    | [] => false
    end in
  if final_sigma then 962%N else 963%N.

Fixpoint lower_from (before after : str) : str :=
  match after with
  | [] => []
  | c :: rest =>
      (if (c =? 931)%N then [handle_capital_sigma before rest]
       else Unicode.to_lower_full c) ++ lower_from (c :: before) rest
  end.

(** [s.lower()] *)
Definition lower (s : str) : str := lower_from [] s.

(** ** The built-ins [int] and [float] on strings *)

(** [Py_ISSPACE] and [Py_ISDIGIT]: the ASCII classes of the C parsers. *)
Definition Py_ISSPACE (c : N) : bool :=
  ((9 <=? c) && (c <=? 13) || (c =? 32))%N.
Definition Py_ISDIGIT (c : N) : bool := ((48 <=? c) && (c <=? 57))%N.

(** [_PyUnicode_TransformDecimalAndSpaceToASCII]: an all-ASCII string is
    returned as it is; otherwise Unicode spaces become a blank, decimal
    digits their ASCII digit, and the first other non-ASCII character becomes
    a question mark at which the output stops. *)
Fixpoint transform_chars (s : str) : str :=
  match s with
  | [] => []
  | c :: s' =>
      if (c <? 127)%N then c :: transform_chars s'
      else if Unicode.isspace c then 32%N :: transform_chars s'
      else match Unicode.to_decimal c with
           | Some d => (48 + d)%N :: transform_chars s'
           | None => [63%N]
           end
  end.

Definition TransformDecimalAndSpaceToASCII (s : str) : str :=
  if forallb (fun c => (c <? 128)%N) s then s else transform_chars s.

(** The value of a run of ASCII digits, most significant first. *)
Definition digits_value (ds : list N) : Z :=
  fold_left (fun acc d => 10 * acc + (Z.of_N d - 48)) ds 0.

(** [sys.get_int_max_str_digits()] is 4300 unless the process changes it;
    0 switches the limit off, and no other value below 640 can be set. *)
Definition default_max_str_digits : N := 4300.
Definition PY_LONG_MAX_STR_DIGITS_THRESHOLD : N := 640.

(** The digit scan of [_PyLong_FromString] in base 10: digits with single
    underscores between them.  Returns the digits read and the unread rest;
    [None] for a doubled or trailing underscore. *)
Fixpoint scan_int_digits (prev : N) (s : str) : option (list N * str) :=
  match s with
  | c :: s' =>
      if (c =? 95)%N then
        if (prev =? 95)%N then None else scan_int_digits c s'
      else if Py_ISDIGIT c then
        match scan_int_digits c s' with
        | Some (ds, rest) => Some (c :: ds, rest)
        | None => None
        end
      else if (prev =? 95)%N then None else Some ([], s)
  | [] => if (prev =? 95)%N then None else Some ([], [])
  end.

(** [PyLong_FromString] in base 10 on the ASCII buffer: optional white space,
    an optional sign, digits with single underscores between them, optional
    white space, and nothing else; more digits than the limit allows is an
    error as well. *)
Definition PyLong_FromString (max_str_digits : N) (buffer : str) : option Z :=
  let a := drop_while Py_ISSPACE buffer in
  let '(negative, b) :=
    match a with
    | 43%N :: r => (false, r)
    | 45%N :: r => (true, r)
    | _ => (false, a)
    end in
  match b with
  | 95%N :: _ => None
  | _ =>
      match scan_int_digits 0 b with
      | Some (ds, rest) =>
          let digits := N.of_nat (length ds) in
          if (PY_LONG_MAX_STR_DIGITS_THRESHOLD <? digits)%N &&
             (0 <? max_str_digits)%N && (max_str_digits <? digits)%N
          then None
          else match ds, drop_while Py_ISSPACE rest with
               | _ :: _, [] =>
                   Some (if negative then - digits_value ds else digits_value ds)
               | _, _ => None
               end
      | None => None
      end
  end.

(** [int(s)] for a string [s]; [None] stands for [ValueError]. *)
Definition py_int (max_str_digits : N) (s : str) : option Z :=
  PyLong_FromString max_str_digits (TransformDecimalAndSpaceToASCII s).

(** Python floats are IEEE-754 binary64 values. *)
Definition prec : Z := 53.
Definition emax : Z := 1024.
Definition float := spec_float.

(** The binary64 value nearest to [m * 10 ^ e10] (ties to even), for a
    non-negative integer [m]: what David Gay's correctly rounded [strtod],
    which CPython uses, returns.  Overflow gives an infinity, underflow a
    subnormal or a signed zero. *)
Definition float_of_decimal (negative : bool) (m e10 : Z) : float :=
  match m with
  | Zpos p =>
      if 0 <=? e10 then
        binary_round prec emax negative (p * Z.to_pos (10 ^ e10)) 0
      else
        let '(q, e2, loc) :=
          SFdiv_core_binary prec emax (Zpos p) 0 (10 ^ (- e10)) 0 in
        binary_round_aux prec emax negative q e2 loc
  | _ => S754_zero negative
  end.

Definition parse_sign (s : str) : bool * str :=
  match s with
  | 45%N :: r => (true, r)
  | 43%N :: r => (false, r)
  | _ => (false, s)
  end.

Definition is_zero_digit (c : N) : bool := (c =? 48)%N.

Definition MAX_DIGITS : Z := 1000000000.
Definition MAX_ABS_EXP : Z := 1100000000.

(** The exponent part read by [_Py_dg_strtod]: [e] or [E], an optional sign
    and at least one digit; anything else leaves the input unread and the
    exponent 0.  Exponents of more than nine significant digits, or above
    [MAX_ABS_EXP], are clamped. *)
Definition parse_exponent (s : str) : Z * str :=
  match s with
  | c :: r =>
      if ((c =? 101) || (c =? 69))%N then
        let '(negative, r1) := parse_sign r in
        match take_while Py_ISDIGIT r1 with
        | [] => (0, s)
        | ds =>
            let significant := drop_while is_zero_digit ds in
            let abs_exp := digits_value significant in
            let e :=
              if (9 <? Z.of_nat (length significant)) || (MAX_ABS_EXP <? abs_exp)
              then MAX_ABS_EXP else abs_exp in
            (if negative then - e else e, drop_while Py_ISDIGIT r1)
        end
      else (0, s)
  | [] => (0, s)
  end.

(** [_Py_dg_strtod]: optional sign, digits with an optional point (at least
    one digit in all), optional exponent.  Returns the value and the unread
    rest, [None] when no number could be read. *)
Definition Py_dg_strtod (s : str) : option (float * str) :=
  let '(negative, s1) := parse_sign s in
  let int_part := take_while Py_ISDIGIT s1 in
  let s2 := drop_while Py_ISDIGIT s1 in
  let '(frac_part, s3) :=
    match s2 with
    | 46%N :: r => (take_while Py_ISDIGIT r, drop_while Py_ISDIGIT r)
    | _ => ([], s2)
    end in
  let digits := int_part ++ frac_part in
  let ndigits := Z.of_nat (length (drop_while is_zero_digit digits)) in
  let fraclen := Z.of_nat (length frac_part) in
  match digits with
  | [] => None
  | _ =>
      if (MAX_DIGITS <? ndigits) || (MAX_DIGITS <? fraclen) then None
      else
        let '(e, s4) := parse_exponent s3 in
        Some (float_of_decimal negative (digits_value digits) (e - fraclen), s4)
  end.

(** [Py_TOLOWER] *)
Definition Py_TOLOWER (c : N) : N :=
  if ((65 <=? c) && (c <=? 90))%N then (c + 32)%N else c.

(** [case_insensitive_match]: the rest of [s] after the lowercase word [t],
    when [s] starts with [t] in any letter case. *)
Fixpoint case_insensitive_match (s t : str) : option str :=
  match t, s with
  | [], _ => Some s
  | _ :: _, [] => None
  | b :: t', a :: s' =>
      if (Py_TOLOWER a =? b)%N then case_insensitive_match s' t' else None
  end.

(** [_Py_parse_inf_or_nan] *)
Definition Py_parse_inf_or_nan (s : str) : option (float * str) :=
  let '(negative, s1) := parse_sign s in
  match case_insensitive_match s1 (lit "inf") with
  | Some r =>
      Some (S754_infinity negative,
            match case_insensitive_match r (lit "inity") with
            | Some r' => r'
            | None => r
            end)
  | None =>
      match case_insensitive_match s1 (lit "nan") with
      | Some r => Some (S754_nan, r)
      | None => None
      end
  end.

(** [PyOS_string_to_double]: a number first, an infinity or a NaN when no
    number could be read. *)
Definition PyOS_string_to_double (s : str) : option (float * str) :=
  match Py_dg_strtod s with
  | Some r => Some r
  | None => Py_parse_inf_or_nan s
  end.

(** The underscore pass of [_Py_string_to_number_with_underscores]: an
    underscore must stand between two digits; a NUL character is an error. *)
Fixpoint strip_underscores (prev : N) (s : str) : option str :=
  match s with
  | [] => if (prev =? 95)%N then None else Some []
  | c :: s' =>
      if (c =? 0)%N then None
      else if (c =? 95)%N then
        if Py_ISDIGIT prev then strip_underscores c s' else None
      else if (prev =? 95)%N && negb (Py_ISDIGIT c) then None
      else match strip_underscores c s' with
           | Some r => Some (c :: r)
           | None => None
           end
  end.

(** [float(s)] for a string [s]; [None] stands for [ValueError], the only
    exception the conversion of a string raises. *)
Definition py_float (s : str) : option float :=
  let a := TransformDecimalAndSpaceToASCII s in
  let b :=
    if str_in [95%N] (take_while (fun c => negb (c =? 0)%N) a)
    then strip_underscores 0 a else Some a in
  match b with
  | Some b =>
      match drop_while Py_ISSPACE b with
      | [] => None
      | c =>
          match PyOS_string_to_double (rev (drop_while Py_ISSPACE (rev c))) with
          | Some (x, []) => Some x
          | _ => None
          end
      end
  | None => None
  end.

(** ** Values, outcomes and the process state *)

(** The values of [additional_settings: Dict[str, Any]] that [run] stores.
    The dictionary itself is a finite map from strings: a key is bound at
    most once and assignment overwrites. *)
Inductive pyvalue :=
| VBool (b : bool)
| VInt (n : Z)
| VFloat (x : float)
| VStr (s : str).

(** The exceptions that can cross [run]: the [ValueError] of [int], the
    [FileNotFoundError] of [os.getcwd()] in a working directory that has been
    removed, the [SystemExit] a server runtime raises when it gives up, and
    any other exception of a collaborator, known by its class name. *)
Inductive exn :=
| ValueError
| FileNotFoundError
| SystemExit (code : Z)
| OtherError (class_name : str).

(** How a computation ends: it returns, it leaves through
    [raise typer.Exit(code=...)], or an exception escapes it. *)
Inductive result (A : Type) :=
| Ok (a : A)
| Exit (code : Z)
| Raise (e : exn).
Arguments Ok {A} a.
Arguments Exit {A} code.
Arguments Raise {A} e.

(** How a call into the surroundings ends: it returns or it raises. *)
Inductive outcome (A : Type) :=
| Returns (a : A)
| Raises (e : exn).
Arguments Returns {A} a.
Arguments Raises {A} e.

(** The pieces of an f-string: literal text and interpolated values. *)
Inductive fragment :=
| Text (s : str)
| FmtStr (s : str)
| FmtInt (n : Z)
| FmtBool (b : bool)
| FmtFloat (x : float)
| FmtDict (d : gmap str pyvalue).

Definition message := list fragment.

(** Levels of the [logging] module. *)
Definition DEBUG : Z := 10.
Definition INFO : Z := 20.
Definition WARNING : Z := 30.
Definition ERROR : Z := 40.

(** The part of the [logging] module's global state that [setup_logging]
    reads or writes: the root logger's level and handlers (a handler is the
    stream handler [basicConfig] creates, known by its format string) and the
    levels set on named loggers. *)
Record Handler := { formatter : str }.

Record logging_state := {
  root_level : Z;
  root_handlers : list Handler;
  logger_levels : gmap str Z
}.

(** [logging.basicConfig(level=..., format=..., force=...)]: with [force] the
    root handlers are removed first; a handler is added and the level set
    only if the root logger has no handler left. *)
Definition basicConfig (level : Z) (format : str) (force : bool)
    (s : logging_state) : logging_state :=
  let handlers := if force then [] else root_handlers s in
  match handlers with
  | [] => {| root_level := level;
             root_handlers := [ {| formatter := format |} ];
             logger_levels := logger_levels s |}
  | _ :: _ => s
  end.

(** [logging.getLogger(name).setLevel(level)] *)
Definition setLevel (name : str) (level : Z) (s : logging_state) : logging_state :=
  {| root_level := root_level s;
     root_handlers := root_handlers s;
     logger_levels := <[ name := level ]> (logger_levels s) |}.

Definition debug_format : str :=
  lit "%(asctime)s - %(name)s - %(levelname)s - [%(filename)s:%(lineno)d] - %(message)s".
Definition standard_format : str :=
  lit "%(asctime)s - %(name)s - %(levelname)s - %(message)s".

Definition setup_logging (debug : bool) (s : logging_state) : logging_state :=
  let level := if debug then DEBUG else INFO in
  let format_str := if debug then debug_format else standard_format in
  let s := basicConfig level format_str true s in
  if debug then
    setLevel (lit "scrapy") INFO (setLevel (lit "scrapit") DEBUG s)
  else
    setLevel (lit "scrapy") WARNING (setLevel (lit "scrapit") INFO s).


(** What the process can observe of its surroundings. *)
Record world := {
  isdir : str -> bool;          (* os.path.isdir *)
  getcwd : outcome str;         (* os.getcwd(): raises when the directory is gone *)
  int_max_str_digits : N        (* sys.get_int_max_str_digits() *)
}.

(** The options of the [run] command, as typer hands them over. *)
Record options := {
  opt_port : Z;
  opt_host : str;
  opt_project : option str;
  opt_settings : option str;
  opt_timeout : option float;
  opt_debug : bool;
  opt_include_logs : bool
}.

(** Truth values of the objects [run] tests. *)
Definition str_truthy (s : str) : bool :=
  match s with [] => false | _ :: _ => true end.
Definition float_truthy (x : float) : bool :=
  match x with S754_zero _ => false | _ => true end.
Definition dict_truthy (d : gmap str pyvalue) : bool :=
  negb (bool_decide (d = ∅)).

Section Program.

(** The route factory [scrapit.api.endpoints.create_router] is an external
    collaborator: any function of its five arguments into some type of
    routers.  It is taken to return its routes, as its interface says. *)
Context {APIRouter : Type}.
Variable create_router :
  option str -> option float -> option (gmap str pyvalue) -> bool -> bool -> APIRouter.

Record CORSMiddleware := {
  allow_origins : list str;
  allow_credentials : bool;
  allow_methods : list str;
  allow_headers : list str
}.

Record FastAPI := {
  app_title : str;
  app_description : str;
  app_version : str;
  user_middleware : list CORSMiddleware;
  included_routers : list APIRouter
}.

(** The server runtime [uvicorn.run] is an external collaborator as well:
    any behaviour that, given the application, the bind address and the log
    level it is handed, does something to the logging configuration (it sets
    up its own loggers from that level) and then either returns, once the
    server has been shut down, or raises, as it does with [SystemExit] when
    startup fails on a port in use. *)
Variable uvicorn :
  FastAPI -> str -> Z -> str -> logging_state -> outcome unit * logging_state.

(** What the process does that others can see, in the order it happens. *)
Inductive event :=
| Logged (level : Z) (msg : message)
| RouterCreated (project_path : option str) (timeout : option float)
    (additional_settings : option (gmap str pyvalue)) (debug include_logs : bool)
| ServerRun (app : FastAPI) (host : str) (port : Z) (log_level : str).

Record process := {
  logging : logging_state;
  trace : list event
}.

(** Computations of the program: they read and update the process state and
    end in a [result]. *)
Definition M (A : Type) : Type := process -> result A * process.

Definition ret {A} (a : A) : M A := fun p => (Ok a, p).

Definition bind {A B} (k : A -> M B) (m : M A) : M B :=
  fun p =>
    match m p with
    | (Ok a, p') => k a p'
    | (Exit code, p') => (Exit code, p')
    | (Raise e, p') => (Raise e, p')
    end.

#[global] Instance M_ret : MRet M := @ret.
#[global] Instance M_bind : MBind M := @bind.

Definition raise {A} (e : exn) : M A := fun p => (Raise e, p).
Definition exit {A} (code : Z) : M A := fun p => (Exit code, p).

Definition emit (ev : event) : M unit :=
  fun p => (Ok tt, {| logging := logging p; trace := trace p ++ [ev] |}).

Definition configure (f : logging_state -> logging_state) : M unit :=
  fun p => (Ok tt, {| logging := f (logging p); trace := trace p |}).

(** A call on the module's [logger]. *)
Definition log (level : Z) (msg : message) : M unit := emit (Logged level msg).

(** *** create_app *)

(** [FastAPI(title=..., description=..., version=...)]: an application
    without middleware or included routers yet. *)
Definition new_FastAPI (title description version : list N) : FastAPI :=
  {| app_title := title;
     app_description := description;
     app_version := version;
     user_middleware := [];
     included_routers := [] |}.

Definition add_middleware (m : CORSMiddleware) (app : FastAPI) : FastAPI :=
  {| app_title := app_title app;
     app_description := app_description app;
     app_version := app_version app;
     user_middleware := m :: user_middleware app;
     included_routers := included_routers app |}.

Definition include_router (r : APIRouter) (app : FastAPI) : FastAPI :=
  {| app_title := app_title app;
     app_description := app_description app;
     app_version := app_version app;
     user_middleware := user_middleware app;
     included_routers := included_routers app ++ [r] |}.

Definition call_create_router (project_path : option str) (timeout : option float)
    (additional_settings : option (gmap str pyvalue)) (debug include_logs : bool)
    : M APIRouter :=
  emit (RouterCreated project_path timeout additional_settings debug include_logs) ;;
  ret (create_router project_path timeout additional_settings debug include_logs).

Definition create_app (project_path : option str) (timeout : option float)
    (additional_settings : option (gmap str pyvalue)) (debug include_logs : bool)
    : M FastAPI :=
  let app :=
    new_FastAPI (lit "ScrapyRT-Compatible API")
      (lit "FastAPI wrapper for Scrapy spiders with ScrapyRT compatibility")
      (lit "1.0.0") in
  let app :=
    add_middleware
      {| allow_origins := [lit "*"];
         allow_credentials := true;
         allow_methods := [lit "*"];
         allow_headers := [lit "*"] |} app in
  router ← call_create_router project_path timeout additional_settings
             debug include_logs ;
  ret (include_router router app).

(** *** run: the settings block (lines 130 to 148) *)

Definition COMMA : N := 44%N.
Definition EQUALS : N := 61%N.

(** The conversion chain of lines 138 to 146.  The [int] call stands outside
    the [try]: its [ValueError] escapes. *)
Definition coerce_value (w : world) (value : str) : result pyvalue :=
  if bool_decide (lower value ∈ [lit "true"; lit "false"]) then
    Ok (VBool (bool_decide (lower value = lit "true")))
  else if isdigit value then
    match py_int (int_max_str_digits w) value with
    | Some n => Ok (VInt n)
    | None => Raise ValueError
    end
  else
    match py_float value with
    | Some x => Ok (VFloat x)
    | None => Ok (VStr value)
    end.

(** The body of the [for] loop; the dictionary is threaded through.
    Unpacking [split("=", 1)] into [key, value] would raise [ValueError] on
    any number of fields but two; the test on line 135 rules that out. *)
Definition parse_setting (w : world) (additional_settings : gmap str pyvalue)
    (setting : str) : M (gmap str pyvalue) :=
  if str_in (lit "=") setting then
    match split1 EQUALS setting with
    | [key; value] =>
        match coerce_value w value with
        | Ok v => ret (<[ strip key := v ]> additional_settings)
        | Exit code => exit code
        | Raise e => raise e
        end
    | _ => raise ValueError
    end
  else
    log WARNING [Text (lit "Ignoring invalid setting format: "); FmtStr setting] ;;
    ret additional_settings.

Fixpoint parse_settings_list (w : world) (additional_settings : gmap str pyvalue)
    (settings_list : list str) : M (gmap str pyvalue) :=
  match settings_list with
  | [] => ret additional_settings
  | setting :: rest =>
      d ← parse_setting w additional_settings setting ;
      parse_settings_list w d rest
  end.

(** Line 133. *)
Definition settings_list (settings : str) : list str :=
  if str_in (lit ",") settings then split COMMA settings else [settings].

(** The candidate entries the loop visits: none when [settings] is [None] or
    empty (line 131). *)
Definition candidate_entries (settings : option str) : list str :=
  match settings with
  | Some s => if str_truthy s then settings_list s else []
  | None => []
  end.

Definition parse_settings (w : world) (settings : option str) : M (gmap str pyvalue) :=
  parse_settings_list w ∅ (candidate_entries settings).

(** *** run *)

(** [project or os.getcwd()]: the call is made only when [project] is
    [None] or empty, and its exception, if any, is that of the expression. *)
Definition project_path (w : world) (project : option str) : outcome str :=
  match project with
  | Some p => if str_truthy p then Returns p else getcwd w
  | None => getcwd w
  end.

(** A call into the surroundings, as a computation. *)
Definition result_of {A} (r : outcome A) : result A :=
  match r with
  | Returns a => Ok a
  | Raises e => Raise e
  end.

Definition call {A} (r : outcome A) : M A := fun p => (result_of r, p).

Definition when (b : bool) (m : M unit) : M unit := if b then m else ret tt.

(** [uvicorn.run(app, host=..., port=..., log_level=...)]: the call is
    recorded; what the server does to the logging configuration and how it
    ends is the collaborator's. *)
Definition uvicorn_run (app : FastAPI) (host : str) (port : Z) (log_level : str)
    : M unit :=
  emit (ServerRun app host port log_level) ;;
  ((fun p =>
      let served := uvicorn app host port log_level (logging p) in
      (result_of served.1, {| logging := served.2; trace := trace p |})) : M unit).

Definition run (w : world) (o : options) : M unit :=
  configure (setup_logging (opt_debug o)) ;;
  additional_settings ← parse_settings w (opt_settings o) ;
  project_path ← call (project_path w (opt_project o)) ;
  if negb (isdir w project_path) then
    log ERROR [Text (lit "Project path does not exist: "); FmtStr project_path] ;;
    exit 1
  else
    log INFO [Text (lit "Starting ScrapyRT-compatible API server")] ;;
    log INFO [Text (lit "Host: "); FmtStr (opt_host o);
              Text (lit ", Port: "); FmtInt (opt_port o)] ;;
    log INFO [Text (lit "Project path: "); FmtStr project_path] ;;
    log INFO [Text (lit "Debug mode: "); FmtBool (opt_debug o)] ;;
    log INFO [Text (lit "Include logs in responses: ");
              FmtBool (opt_include_logs o)] ;;
    when (dict_truthy additional_settings)
      (log INFO [Text (lit "Additional settings: "); FmtDict additional_settings]) ;;
    match opt_timeout o with
    | Some t =>
        when (float_truthy t)
          (log INFO [Text (lit "Default timeout: "); FmtFloat t;
                     Text (lit " seconds")])
    | None => ret tt
    end ;;
    app ← create_app (Some project_path) (opt_timeout o) (Some additional_settings)
            (opt_debug o) (opt_include_logs o) ;
    let log_level := if opt_debug o then lit "debug" else lit "info" in
    uvicorn_run app (opt_host o) (opt_port o) log_level.

End Program.

(** ** Auxiliary definitions used in statements and proofs *)

(** [sep.join(fields)] for a one-character separator. *)
Fixpoint join (sep : N) (fields : list str) : str :=
  match fields with
  | [] => []
  | [field] => field
  | field :: rest => field ++ sep :: join sep rest
  end.

(** The code points of the ranges of a table, listed one by one. *)
Definition range_list (r : N * N) : list N :=
  List.map N.of_nat
    (seq (N.to_nat (fst r)) (S (N.to_nat (snd r)) - N.to_nat (fst r))).

Definition enumerate (t : list (N * N)) : list N := flat_map range_list t.

(** The ASCII digit that stands for a decimal digit of any script, and the
    integer a string of such digits denotes. *)
Definition is_decimal (c : N) : bool :=
  match Unicode.to_decimal c with Some _ => true | None => false end.

Definition ascii_digit_of (c : N) : N :=
  match Unicode.to_decimal c with Some d => (48 + d)%N | None => 63%N end.

Definition decimal_value (s : list N) : Z := digits_value (List.map ascii_digit_of s).

(** Whether [int] refuses a string of [n] digits for its length. *)
Definition over_limit (max_str_digits : N) (n : nat) : bool :=
  (PY_LONG_MAX_STR_DIGITS_THRESHOLD <? N.of_nat n)%N &&
  (0 <? max_str_digits)%N && (max_str_digits <? N.of_nat n)%N.

(** Binary64 values given exactly: the integer [m] times [2 ^ e]. *)
Definition dyadic (m e : Z) : float := binary_normalize prec emax m e false.

(** The state of [logging] in a fresh interpreter: root level WARNING, no
    handler, no level set on any named logger. *)
Definition fresh_logging : logging_state :=
  {| root_level := WARNING; root_handlers := []; logger_levels := ∅ |}.

(** A concrete world for the examples: one directory exists, it is the
    working directory, and the integer digit limit has its default. *)
Definition example_world : world :=
  {| isdir := fun p => bool_decide (p = lit "/srv/project");
     getcwd := Returns (lit "/srv/project");
     int_max_str_digits := default_max_str_digits |}.


(** A route factory for the examples: its router is the unit value. *)
Definition unit_router (_ : option str) (_ : option float)
    (_ : option (gmap str pyvalue)) (_ _ : bool) : unit := tt.

(** Two server runtimes for the examples.  The first sets the level of its
    two loggers from the log level it is handed and returns when the server
    is shut down; the second finds the port in use and gives up. *)
Definition quiet_uvicorn (_ : @FastAPI unit) (_ : str) (_ : Z) (log_level : str)
    (s : logging_state) : outcome unit * logging_state :=
  let level := if bool_decide (log_level = lit "debug") then DEBUG else INFO in
  (Returns tt,
   setLevel (lit "uvicorn.access") level (setLevel (lit "uvicorn.error") level s)).


Definition fresh_process : @process unit :=
  {| logging := fresh_logging; trace := [] |}.

(** The warning line 148 logs for a malformed entry. *)
Definition invalid_setting_warning {APIRouter : Type} (setting : str) : @event APIRouter :=
  Logged WARNING [Text (lit "Ignoring invalid setting format: "); FmtStr setting].

(** An entry the loop accepts: it contains an equals sign. *)
Definition well_formed (setting : str) : bool := str_in (lit "=") setting.

(** Events of the two collaborators [create_router] and [uvicorn.run]. *)
Definition is_logged {APIRouter : Type} (ev : @event APIRouter) : bool :=
  match ev with
  | Logged _ _ => true
  | _ => false
  end.

(** The splitting and the path resolution as the specification words them,
    for comparison with [candidate_entries] and [project_path]: "if the
    string contains a comma, split on commas into candidate entries;
    otherwise treat the whole string as one entry", and "explicit value if
    given, else the process's current working directory". *)
Definition spec_candidate_entries (settings : str) : list str :=
  if str_in (lit ",") settings then split COMMA settings else [settings].




(** The process once line 128 has configured logging. *)
Definition configured {APIRouter : Type} (debug : bool) (p : @process APIRouter)
    : @process APIRouter :=
  {| logging := setup_logging debug (logging p); trace := trace p |}.

(** The error line 153 logs. *)
Definition missing_project_error {APIRouter : Type} (path : str) : @event APIRouter :=
  Logged ERROR [Text (lit "Project path does not exist: "); FmtStr path].

(** The permissive cross-origin policy of lines 74 to 80. *)
Definition permissive_cors : CORSMiddleware :=
  {| allow_origins := [lit "*"];
     allow_credentials := true;
     allow_methods := [lit "*"];
     allow_headers := [lit "*"] |}.

(** The application [run] hands to the server: the one [create_app] returns
    for the resolved path and the parsed settings. *)
Definition served_app {APIRouter : Type}
    (create_router : option (list N) -> option float ->
                     option (gmap (list N) pyvalue) -> bool -> bool -> APIRouter)
    (o : options) (path : list N) (additional_settings : gmap (list N) pyvalue)
    : @FastAPI APIRouter :=
  include_router
    (create_router (Some path) (opt_timeout o) (Some additional_settings)
       (opt_debug o) (opt_include_logs o))
    (add_middleware permissive_cors
       (new_FastAPI (lit "ScrapyRT-Compatible API")
          (lit "FastAPI wrapper for Scrapy spiders with ScrapyRT compatibility")
          (lit "1.0.0"))).

(** The log level [run] hands to the server (line 176). *)
Definition server_log_level (o : options) : list N :=
  if opt_debug o then lit "debug" else lit "info".

(** The server call of lines 177 to 182, from the logging configuration it
    finds: how it ends and the configuration it leaves. *)
Definition server_call {APIRouter : Type}
    (create_router : option (list N) -> option float ->
                     option (gmap (list N) pyvalue) -> bool -> bool -> APIRouter)
    (uvicorn : @FastAPI APIRouter -> list N -> Z -> list N -> logging_state ->
               outcome unit * logging_state)
    (o : options) (path : list N) (additional_settings : gmap (list N) pyvalue)
    (s : logging_state) : outcome unit * logging_state :=
  uvicorn (served_app create_router o path additional_settings)
    (opt_host o) (opt_port o) (server_log_level o) s.

(** The events of a startup that gets as far as the server call. *)
Definition startup_calls {APIRouter : Type}
    (create_router : option (list N) -> option float ->
                     option (gmap (list N) pyvalue) -> bool -> bool -> APIRouter)
    (o : options) (path : list N) (additional_settings : gmap (list N) pyvalue)
    : list (@event APIRouter) :=
  [ RouterCreated (Some path) (opt_timeout o) (Some additional_settings)
      (opt_debug o) (opt_include_logs o);
    ServerRun (served_app create_router o path additional_settings)
      (opt_host o) (opt_port o) (server_log_level o) ].

(** What lines 156 to 164 log before the application is assembled. *)
Definition startup_logs {APIRouter : Type} (o : options) (path : list N)
    (additional_settings : gmap (list N) pyvalue) : list (@event APIRouter) :=
  [ Logged INFO [Text (lit "Starting ScrapyRT-compatible API server")];
    Logged INFO [Text (lit "Host: "); FmtStr (opt_host o);
                 Text (lit ", Port: "); FmtInt (opt_port o)];
    Logged INFO [Text (lit "Project path: "); FmtStr path];
    Logged INFO [Text (lit "Debug mode: "); FmtBool (opt_debug o)];
    Logged INFO [Text (lit "Include logs in responses: ");
                 FmtBool (opt_include_logs o)] ] ++
  (if dict_truthy additional_settings
   then [Logged INFO [Text (lit "Additional settings: "); FmtDict additional_settings]]
   else []) ++
  match opt_timeout o with
  | Some t =>
      if float_truthy t
      then [Logged INFO [Text (lit "Default timeout: "); FmtFloat t;
                         Text (lit " seconds")]]
      else []
  | None => []
  end.

(** ** Auxiliary definitions for the further properties *)

(** The letters of the words [true] and [false]. *)
Definition boolean_letters : list N := lit "truefals".

(** A run of the lowercase table sends no character to a letter of [true] or
    [false] except the capital form of that letter. *)
Definition run_spares_boolean_letters (r : N * N * N * Z) : bool :=
  forallb
    (fun x =>
       let c := Z.of_N x - snd r in
       (c <? 0) || negb (Unicode.in_run (Z.to_N c) r) ||
       (Py_TOLOWER (Z.to_N c) =? x)%N)
    boolean_letters.



(** An invocation for the examples:
    [scrapit -p 8000 -i 127.0.0.1 -s DEPTH=2 -t 0 --debug --no-logs]. *)
Definition example_options : options :=
  {| opt_port := 8000;
     opt_host := lit "127.0.0.1";
     opt_project := None;
     opt_settings := Some (lit "DEPTH=2");
     opt_timeout := Some (S754_zero false);
     opt_debug := true;
     opt_include_logs := false |}.

(** What one entry does to the mapping when its value converts: nothing for
    an entry without an equals sign, one assignment otherwise. *)
Definition entry_update (w : world) (setting : list N)
    (d : gmap (list N) pyvalue) : gmap (list N) pyvalue :=
  if well_formed setting then
    match split1 EQUALS setting with
    | [key; value] =>
        match coerce_value w value with
        | Ok x => <[ strip key := x ]> d
        | _ => d
        end
    | _ => d
    end
  else d.

(** No two accepted entries of different text write the same key. *)
Definition distinct_keys (entries : list (list N)) : Prop :=
  forall e1 e2 k1 v1 k2 v2,
    e1 ∈ entries -> e2 ∈ entries ->
    well_formed e1 = true -> well_formed e2 = true ->
    split1 EQUALS e1 = [k1; v1] -> split1 EQUALS e2 = [k2; v2] ->
    strip k1 = strip k2 -> e1 = e2.

(** The value of an accepted entry gets through the conversion chain. *)
Definition value_converts (w : world) (setting : list N) : Prop :=
  forall k v, split1 EQUALS setting = [k; v] -> well_formed setting = true ->
    exists x, coerce_value w v = Ok x.

(** The spellings of a lowercase ASCII word in any mix of upper and lower
    case. *)
Fixpoint ascii_case_variants (word : list N) : list (list N) :=
  match word with
  | [] => [[]]
  | x :: rest =>
      flat_map (fun r => [x :: r; (x - 32)%N :: r]) (ascii_case_variants rest)
  end.

(** The three tests of the conversion chain that make a value the infinity
    of sign [negative], or the NaN when [nan] is set. *)
Definition stored_as_special_float (nan negative : bool) (value : list N) : bool :=
  negb (bool_decide (lower value ∈ [lit "true"; lit "false"])) &&
  negb (isdigit value) &&
  match py_float value with
  | Some S754_nan => nan
  | Some (S754_infinity s) => negb nan && Bool.eqb s negative
  | _ => false
  end.

(** * Properties *)

(** ** Character tables *)

Lemma range_list_elem (r : N * N) (c : N) :
  (fst r <= c)%N -> (c <= snd r)%N -> In c (range_list r).
Proof.
  intros Hlo Hhi. unfold range_list.
  apply in_map_iff. exists (N.to_nat c). split; [apply N2Nat.id|].
  apply in_seq. lia.
Qed.

Lemma in_ranges_enumerate (c : N) (t : list (N * N)) :
  Unicode.in_ranges c t = true -> In c (enumerate t).
Proof.
  unfold Unicode.in_ranges, enumerate. intros H.
  apply existsb_exists in H as (r & Hr & Hc).
  apply andb_true_iff in Hc as [Hlo Hhi].
  apply in_flat_map. exists r. split; [exact Hr|].
  apply range_list_elem; [apply N.leb_le, Hlo | apply N.leb_le, Hhi].
Qed.

(** A boolean property checked on every listed code point of a table holds
    of every character the table accepts. *)
Lemma forall_in_ranges (P : N -> bool) (t : list (N * N)) :
  forallb P (enumerate t) = true ->
  forall c, Unicode.in_ranges c t = true -> P c = true.
Proof.
  intros Hall c Hc. rewrite forallb_forall in Hall.
  apply Hall, in_ranges_enumerate, Hc.
Qed.

Lemma isspace_facts (c : N) :
  Unicode.isspace c = true ->
  Unicode.isdigit c = false /\ Unicode.to_lower_full c = [c] /\ c <> 931%N /\
  ~ c ∈ lit "true" /\ ~ c ∈ lit "false".
Proof.
  intros Hc.
  pose (P := fun c : N =>
    negb (Unicode.isdigit c) &&
    bool_decide (Unicode.to_lower_full c = [c]) &&
    negb (c =? 931)%N &&
    negb (bool_decide (c ∈ lit "true")) && negb (bool_decide (c ∈ lit "false"))).
  assert (HP : P c = true).
  { apply (forall_in_ranges P Unicode.space_ranges); [vm_compute; reflexivity | exact Hc]. }
  unfold P in HP.
  apply andb_true_iff in HP as [HP Hfalse].
  apply andb_true_iff in HP as [HP Htrue].
  apply andb_true_iff in HP as [HP Hsigma].
  apply andb_true_iff in HP as [Hdigit Hlower].
  repeat split.
  - now apply negb_true_iff.
  - now apply bool_decide_eq_true in Hlower.
  - now apply negb_true_iff, N.eqb_neq in Hsigma.
  - now apply negb_true_iff, bool_decide_eq_false in Htrue.
  - now apply negb_true_iff, bool_decide_eq_false in Hfalse.
Qed.

(** What the tables say of a character that [isdigit] accepts: it is no
    white space, no underscore and no sign; when it is a decimal its value is
    below ten and, inside ASCII, it is the digit of that value; when it is
    not, it lies outside ASCII. *)
Lemma digit_facts (c : N) :
  Unicode.isdigit c = true ->
  Unicode.isspace c = false /\ Unicode.to_lower_full c = [c] /\ c <> 931%N /\
  c <> 116%N /\ c <> 102%N /\
  Py_ISDIGIT (ascii_digit_of c) = is_decimal c /\
  ascii_digit_of c <> 95%N /\ ascii_digit_of c <> 43%N /\
  ascii_digit_of c <> 45%N /\ Py_ISSPACE (ascii_digit_of c) = false /\
  ((c <? 128)%N = true -> ascii_digit_of c = c) /\
  (is_decimal c = false -> (c <? 128)%N = false).
Proof.
  intros Hc.
  pose (P := fun c : N =>
    negb (Unicode.isspace c) && bool_decide (Unicode.to_lower_full c = [c]) &&
    negb (bool_decide (c ∈ [931; 116; 102]%N)) &&
    bool_decide (Py_ISDIGIT (ascii_digit_of c) = is_decimal c) &&
    negb (bool_decide (ascii_digit_of c ∈ [95; 43; 45]%N)) &&
    negb (Py_ISSPACE (ascii_digit_of c)) &&
    (negb (c <? 128)%N || (ascii_digit_of c =? c)%N) &&
    (is_decimal c || negb (c <? 128)%N)).
  assert (HP : P c = true).
  { apply (forall_in_ranges P Unicode.digit_ranges); [vm_compute; reflexivity | exact Hc]. }
  unfold P in HP.
  apply andb_true_iff in HP as [HP Hnondec].
  apply andb_true_iff in HP as [HP Hascii].
  apply andb_true_iff in HP as [HP Hsp].
  apply andb_true_iff in HP as [HP Hplain].
  apply andb_true_iff in HP as [HP Hisdigit].
  apply andb_true_iff in HP as [HP Hnot].
  apply andb_true_iff in HP as [Hspace Hlower].
  apply negb_true_iff, bool_decide_eq_false in Hnot.
  apply negb_true_iff, bool_decide_eq_false in Hplain.
  repeat split.
  - now apply negb_true_iff.
  - now apply bool_decide_eq_true in Hlower.
  - intros ->. apply Hnot. set_solver.
  - intros ->. apply Hnot. set_solver.
  - intros ->. apply Hnot. set_solver.
  - now apply bool_decide_eq_true in Hisdigit.
  - intros Heq. apply Hplain. rewrite Heq. set_solver.
  - intros Heq. apply Hplain. rewrite Heq. set_solver.
  - intros Heq. apply Hplain. rewrite Heq. set_solver.
  - now apply negb_true_iff.
  - intros Hlt. rewrite Hlt in Hascii. simpl in Hascii. now apply N.eqb_eq.
  - intros Hdec. rewrite Hdec in Hnondec. simpl in Hnondec.
    now apply negb_true_iff.
Qed.

(** The ASCII digits are decimals of [isdigit]. *)
Lemma ascii_digit_facts (c : N) :
  Py_ISDIGIT c = true ->
  Unicode.isdigit c = true /\ is_decimal c = true /\ (c <? 128)%N = true /\
  ascii_digit_of c = c.
Proof.
  intros Hc.
  pose (P := fun c : N =>
    Unicode.isdigit c && is_decimal c && (c <? 128)%N && (ascii_digit_of c =? c)%N).
  assert (HP : P c = true).
  { apply (forall_in_ranges P [(48, 57)%N]); [vm_compute; reflexivity|].
    unfold Unicode.in_ranges. simpl. now rewrite orb_false_r. }
  unfold P in HP.
  apply andb_true_iff in HP as [HP Hsame].
  apply andb_true_iff in HP as [HP Hascii].
  apply andb_true_iff in HP as [Hdigit Hdec].
  repeat split; try assumption. now apply N.eqb_eq.
Qed.

(** Every decimal digit is a digit for [isdigit]; SUPERSCRIPT TWO is a digit
    that is not a decimal. *)
Lemma decimal_is_digit (c : N) :
  is_decimal c = true -> Unicode.isdigit c = true.
Proof.
  unfold is_decimal, Unicode.to_decimal. intros Hc.
  apply (forall_in_ranges Unicode.isdigit Unicode.decimal_ranges);
    [vm_compute; reflexivity|].
  unfold Unicode.in_ranges.
  destruct (List.find _ Unicode.decimal_ranges) as [r|] eqn:Hfind; [|discriminate].
  apply find_some in Hfind as [Hr Hin]. apply existsb_exists. eauto.
Qed.

Lemma superscript_two_is_no_decimal :
  Unicode.isdigit 178 = true /\ is_decimal 178 = false.
Proof. split; reflexivity. Qed.

(** The first character decides the sign and underscore tests of
    [PyLong_FromString]. *)
Lemma match_sign_other {A : Type} (c : N) (r : list N) (x y : list N -> A) (z : A) :
  c <> 43%N -> c <> 45%N ->
  match c :: r with
  | 43%N :: r' => x r'
  | 45%N :: r' => y r'
  | _ => z
  end = z.
Proof.
  intros H43 H45. destruct c as [|q]; [reflexivity|].
  do 6 (destruct q as [q|q|]; try reflexivity); congruence.
Qed.

Lemma match_underscore_other {A : Type} (c : N) (r : list N) (x z : A) :
  c <> 95%N ->
  match c :: r with
  | 95%N :: _ => x
  | _ => z
  end = z.
Proof.
  intros H95. destruct c as [|q]; [reflexivity|].
  do 7 (destruct q as [q|q|]; try reflexivity); congruence.
Qed.

(** ** Strings *)

Lemma lit_comma : lit "," = [COMMA].
Proof. reflexivity. Qed.

Lemma lit_equals : lit "=" = [EQUALS].
Proof. reflexivity. Qed.

Lemma str_in_char (c : N) (s : str) : str_in [c] s = true <-> c ∈ s.
Proof.
  induction s as [|a s IH]; simpl.
  - split; [discriminate | intros H; inversion H].
  - rewrite orb_true_iff, IH, elem_of_cons.
    destruct (N.eqb_spec c a) as [->|Hne]; simpl.
    + split; auto.
    + split; [intros [H|H]; [discriminate | auto] | intros [H|H]; [congruence | auto]].
Qed.

Lemma str_in_char_false (c : N) (s : str) : str_in [c] s = false <-> ~ c ∈ s.
Proof.
  rewrite <- str_in_char. destruct (str_in [c] s); split; congruence.
Qed.

Lemma split_nonempty (sep : N) (s : str) : split sep s <> [].
Proof.
  destruct s as [|c s]; simpl; [discriminate|].
  destruct (c =? sep)%N; [discriminate|].
  destruct (split sep s); discriminate.
Qed.

(** Splitting loses nothing: joining the fields gives the string back. *)
Lemma join_split (sep : N) (s : str) : join sep (split sep s) = s.
Proof.
  induction s as [|c s IH]; [reflexivity|]. simpl.
  destruct (N.eqb_spec c sep) as [->|Hne].
  - pose proof (split_nonempty sep s) as Hne.
    simpl. destruct (split sep s) as [|f fs]; [congruence|].
    simpl in *. now rewrite IH.
  - pose proof (split_nonempty sep s) as Hnil.
    destruct (split sep s) as [|f fs]; [congruence|].
    destruct fs as [|g gs]; simpl in *; now rewrite <- IH.
Qed.

(** No field contains the separator. *)
Lemma split_fields (sep : N) (s : str) :
  Forall (fun field => ~ sep ∈ field) (split sep s).
Proof.
  induction s as [|c s IH]; simpl.
  - constructor; [apply not_elem_of_nil | constructor].
  - destruct (N.eqb_spec c sep) as [->|Hne].
    + constructor; [apply not_elem_of_nil | exact IH].
    + destruct (split sep s) as [|f fs]; [repeat constructor|].
      * intros H. apply list_elem_of_singleton in H. congruence.
      * inversion IH; subst. constructor; [|assumption].
        rewrite elem_of_cons. intros [H|H]; [congruence | auto].
Qed.

Lemma split_without_separator (sep : N) (s : str) :
  ~ sep ∈ s -> split sep s = [s].
Proof.
  induction s as [|c s IH]; [reflexivity|]. intros Hn.
  apply not_elem_of_cons in Hn as [Hne Hn]. simpl.
  destruct (N.eqb_spec c sep); [congruence|]. now rewrite IH.
Qed.

(** One more field than separators. *)
Lemma split_length (sep : N) (s : str) :
  length (split sep s) = S (length (filter (fun c => c = sep) s)).
Proof.
  induction s as [|c s IH]; [reflexivity|].
  rewrite filter_cons. cbn [split].
  destruct (N.eqb_spec c sep) as [->|Hne].
  - rewrite decide_True by reflexivity. cbn [length]. now rewrite IH.
  - rewrite decide_False by assumption. rewrite <- IH.
    pose proof (split_nonempty sep s).
    destruct (split sep s); [congruence | reflexivity].
Qed.

(** [split(sep, 1)] cuts at the first separator and nowhere else. *)
Lemma split1_first (sep : N) (k v : str) :
  ~ sep ∈ k -> split1 sep (k ++ sep :: v) = [k; v].
Proof.
  induction k as [|c k IH]; intros Hn; simpl.
  - now rewrite N.eqb_refl.
  - apply not_elem_of_cons in Hn as [Hne Hn].
    destruct (N.eqb_spec c sep); [congruence|]. now rewrite IH.
Qed.

Lemma split1_without_separator (sep : N) (s : str) :
  ~ sep ∈ s -> split1 sep s = [s].
Proof.
  induction s as [|c s IH]; [reflexivity|]. intros Hn.
  apply not_elem_of_cons in Hn as [Hne Hn]. simpl.
  destruct (N.eqb_spec c sep); [congruence|]. now rewrite IH.
Qed.

(** An entry with an equals sign always unpacks into a key and a value. *)
Lemma split1_unpack (sep : N) (s : str) :
  sep ∈ s ->
  exists k v, split1 sep s = [k; v] /\ s = k ++ sep :: v /\ ~ sep ∈ k.
Proof.
  intros Hin. apply list_elem_of_split_l in Hin as (k & v & -> & Hk).
  exists k, v. split; [now apply split1_first | auto].
Qed.

Lemma drop_while_none {A} (p : A -> bool) (l : list A) :
  Forall (fun x => p x = false) l -> drop_while p l = l.
Proof.
  intros H. destruct H as [|x l Hx _]; [reflexivity|]. simpl. now rewrite Hx.
Qed.

Lemma forallb_false_exists {A} (p : A -> bool) (l : list A) :
  forallb p l = false -> exists x, In x l /\ p x = false.
Proof.
  induction l as [|a l IH]; simpl; [discriminate|].
  destruct (p a) eqn:Ha; simpl.
  - intros H. destruct (IH H) as (x & Hx & Hp). exists x. auto.
  - intros _. exists a. auto.
Qed.

(** A string without whitespace characters is its own [strip()]. *)
Lemma strip_without_space (v : str) :
  Forall (fun c => Unicode.isspace c = false) v -> strip v = v.
Proof.
  intros H. unfold strip, lstrip, rstrip.
  rewrite (drop_while_none _ v H).
  rewrite drop_while_none; [apply rev_involutive|].
  apply Forall_forall. intros c Hc. rewrite Forall_forall in H.
  apply H, list_elem_of_In. apply list_elem_of_In in Hc.
  apply (proj2 (in_rev v c)), Hc.
Qed.

(** So a string that [strip()] changes holds a whitespace character. *)
Lemma padded_has_space (v : str) :
  strip v <> v -> exists c, c ∈ v /\ Unicode.isspace c = true.
Proof.
  intros Hne.
  destruct (forallb (fun c => negb (Unicode.isspace c)) v) eqn:Hall.
  - exfalso. apply Hne, strip_without_space.
    apply Forall_forall. intros c Hc. rewrite forallb_forall in Hall.
    apply negb_true_iff, Hall. now apply list_elem_of_In.
  - apply forallb_false_exists in Hall as (c & Hc & Hsp).
    exists c. split; [now apply list_elem_of_In|].
    now apply negb_false_iff in Hsp.
Qed.

(** Lowercasing keeps, in place, the image of every character other than
    the capital sigma. *)
Lemma lower_from_elem (before s : str) (c x : N) :
  c ∈ s -> c <> 931%N -> x ∈ Unicode.to_lower_full c -> x ∈ lower_from before s.
Proof.
  revert before. induction s as [|a s IH]; intros before Hc Hsig Hx.
  - inversion Hc.
  - simpl. apply elem_of_app. apply elem_of_cons in Hc as [->|Hc].
    + left. apply N.eqb_neq in Hsig. now rewrite Hsig.
    + right. now apply IH.
Qed.

Lemma lower_keeps_space (v : str) (c : N) :
  c ∈ v -> Unicode.isspace c = true -> c ∈ lower v.
Proof.
  intros Hc Hsp. destruct (isspace_facts c Hsp) as (_ & Hlow & Hsig & _).
  apply (lower_from_elem [] v c c Hc Hsig). rewrite Hlow. apply list_elem_of_singleton.
  reflexivity.
Qed.

Lemma padded_not_boolean (v : str) (c : N) :
  c ∈ v -> Unicode.isspace c = true -> ~ lower v ∈ [lit "true"; lit "false"].
Proof.
  intros Hc Hsp Hin.
  pose proof (lower_keeps_space v c Hc Hsp) as Hlow.
  destruct (isspace_facts c Hsp) as (_ & _ & _ & Ht & Hf).
  apply elem_of_cons in Hin as [Heq|Hin].
  - rewrite Heq in Hlow. contradiction.
  - apply list_elem_of_singleton in Hin. rewrite Hin in Hlow. contradiction.
Qed.

Lemma padded_not_digits (v : str) (c : N) :
  c ∈ v -> Unicode.isspace c = true -> isdigit v = false.
Proof.
  intros Hc Hsp. destruct (isspace_facts c Hsp) as (Hd & _).
  unfold isdigit. destruct v as [|a v]; [reflexivity|].
  apply not_true_is_false. intros Hall. rewrite forallb_forall in Hall.
  apply list_elem_of_In in Hc. apply Hall in Hc. congruence.
Qed.

(** ** Floats *)

(** The binary64 values the examples meet, in sign, mantissa and exponent:
    2.5 is 5 * 2^50 * 2^-51 and -5.0 is -(5 * 2^50) * 2^-50. *)
Lemma dyadic_examples :
  dyadic 5 (-1) = S754_finite false 5629499534213120 (-51) /\
  dyadic (-5) 0 = S754_finite true 5629499534213120 (-50) /\
  dyadic 3 0 = S754_finite false 6755399441055744 (-51) /\
  (5629499534213120 = 5 * 2 ^ 50 /\ 6755399441055744 = 3 * 2 ^ 51)%Z.
Proof. repeat split; reflexivity. Qed.

(** [float] reads the forms of Python's grammar and nothing else. *)
Lemma py_float_examples :
  py_float (lit "2.5") = Some (dyadic 5 (-1)) /\
  py_float (lit " 2.5 ") = Some (dyadic 5 (-1)) /\
  py_float (lit "-5") = Some (dyadic (-5) 0) /\
  py_float (lit "1_0") = Some (dyadic 10 0) /\
  py_float (lit "1e3") = Some (dyadic 1000 0) /\
  py_float (lit ".5") = Some (dyadic 1 (-1)) /\
  py_float (lit "inf") = Some (S754_infinity false) /\
  py_float (lit "-Infinity") = Some (S754_infinity true) /\
  py_float (lit "NaN") = Some S754_nan /\
  py_float (lit "1e400") = Some (S754_infinity false) /\
  py_float (lit "") = None /\
  py_float (lit "hello") = None /\
  py_float (lit "1.2.3") = None /\
  py_float (lit "0x10") = None /\
  py_float (lit "1__0") = None /\
  py_float (lit "- 5") = None.
Proof. repeat split; vm_compute; reflexivity. Qed.

(** ** The conversion chain *)

(** A value with surrounding whitespace is tested as it stands: it is
    neither a boolean nor all digits, so only [float] can accept it. *)
Lemma coerce_value_padded (w : world) (v : str) :
  strip v <> v ->
  coerce_value w v =
    Ok (match py_float v with Some x => VFloat x | None => VStr v end).
Proof.
  intros Hne. destruct (padded_has_space v Hne) as (c & Hc & Hsp).
  unfold coerce_value.
  rewrite bool_decide_eq_false_2 by (eapply padded_not_boolean; eauto).
  rewrite (padded_not_digits v c Hc Hsp).
  destruct (py_float v); reflexivity.
Qed.

(** *** [int] on the strings that [isdigit] accepts *)

Lemma isdigit_chars (v : str) :
  isdigit v = true <-> v <> [] /\ Forall (fun c => Unicode.isdigit c = true) v.
Proof.
  unfold isdigit. destruct v as [|c v].
  - split; [discriminate | intros [H _]; congruence].
  - rewrite forallb_forall, Forall_forall. split.
    + intros H. split; [discriminate|]. intros x Hx. now apply H, list_elem_of_In.
    + intros [_ H] x Hx. now apply H, list_elem_of_In.
Qed.

Lemma take_while_all {A} (f : A -> bool) (l : list A) :
  forallb f l = true -> take_while f l = l.
Proof.
  induction l as [|x l IH]; [reflexivity|]. simpl.
  intros H. apply andb_true_iff in H as [Hx Hl]. now rewrite Hx, IH.
Qed.

Lemma take_while_holds {A} (f : A -> bool) (l : list A) :
  Forall (fun x => f x = true) (take_while f l).
Proof.
  induction l as [|x l IH]; [constructor|]. simpl.
  destruct (f x) eqn:Hx; [now constructor | constructor].
Qed.

(** The ASCII buffer of a string of digits: the ASCII digits of its leading
    decimals, followed by a question mark when a digit that is not a decimal
    cuts it short. *)
Lemma transform_chars_digits (v : str) :
  Forall (fun c => Unicode.isdigit c = true) v ->
  transform_chars v =
    List.map ascii_digit_of (take_while is_decimal v) ++
    (if forallb is_decimal v then [] else [63%N]).
Proof.
  induction 1 as [|c v Hc Hv IH]; [reflexivity|].
  destruct (digit_facts c Hc) as (Hsp & _ & _ & _ & _ & _ & _ & _ & _ & _ & Hsame & Hnondec).
  cbn [transform_chars take_while forallb].
  destruct (c <? 127)%N eqn:H127.
  - assert (H128 : (c <? 128)%N = true) by (apply N.ltb_lt; apply N.ltb_lt in H127; lia).
    assert (Hdec : is_decimal c = true).
    { destruct (is_decimal c) eqn:E; [reflexivity|]. rewrite Hnondec in H128; congruence. }
    rewrite Hdec. cbn [List.map andb app]. now rewrite (Hsame H128), IH.
  - rewrite Hsp. destruct (Unicode.to_decimal c) as [d|] eqn:Hd.
    + assert (Hdec : is_decimal c = true) by (unfold is_decimal; now rewrite Hd).
      assert (Hascii : ascii_digit_of c = (48 + d)%N)
        by (unfold ascii_digit_of; now rewrite Hd).
      rewrite Hdec. cbn [List.map andb app]. now rewrite Hascii, IH.
    + assert (Hdec : is_decimal c = false) by (unfold is_decimal; now rewrite Hd).
      now rewrite Hdec.
Qed.

Lemma transform_digits (v : str) :
  Forall (fun c => Unicode.isdigit c = true) v ->
  TransformDecimalAndSpaceToASCII v =
    List.map ascii_digit_of (take_while is_decimal v) ++
    (if forallb is_decimal v then [] else [63%N]).
Proof.
  intros Hv. unfold TransformDecimalAndSpaceToASCII.
  destruct (forallb (fun c => (c <? 128)%N) v) eqn:Hascii;
    [|now apply transform_chars_digits].
  clear -Hv Hascii. induction Hv as [|c v Hc Hv IH]; [reflexivity|].
  cbn [forallb] in Hascii. apply andb_true_iff in Hascii as [H128 Hascii].
  destruct (digit_facts c Hc) as (_ & _ & _ & _ & _ & _ & _ & _ & _ & _ & Hsame & Hnondec).
  assert (Hdec : is_decimal c = true).
  { destruct (is_decimal c) eqn:E; [reflexivity|]. rewrite Hnondec in H128; congruence. }
  cbn [take_while forallb]. rewrite Hdec. cbn [List.map andb app].
  now rewrite (Hsame H128), <- IH.
Qed.

(** The digit scan reads a run of ASCII digits up to its end or up to a
    character that is neither a digit nor an underscore. *)
Lemma scan_int_digits_run (prev : N) (ds rest : list N) :
  prev <> 95%N -> Forall (fun c => Py_ISDIGIT c = true) ds ->
  rest = [] \/ rest = [63%N] ->
  scan_int_digits prev (ds ++ rest) = Some (ds, rest).
Proof.
  intros Hprev Hds Hrest. revert prev Hprev.
  induction Hds as [|c ds Hc Hds IH]; intros prev Hprev.
  - apply N.eqb_neq in Hprev. destruct Hrest as [->| ->]; simpl; now rewrite Hprev.
  - destruct (ascii_digit_facts c Hc) as (Hdigit & _ & _ & Hsame).
    destruct (digit_facts c Hdigit) as (_ & _ & _ & _ & _ & _ & H95 & _).
    rewrite Hsame in H95. cbn [app scan_int_digits].
    apply N.eqb_neq in H95 as H95'. rewrite H95', Hc. now rewrite (IH c H95).
Qed.

Lemma PyLong_FromString_head (limit : N) (c : N) (buffer : list N) :
  Py_ISSPACE c = false -> c <> 43%N -> c <> 45%N -> c <> 95%N ->
  PyLong_FromString limit (c :: buffer) =
    match scan_int_digits 0 (c :: buffer) with
    | Some (ds, rest) =>
        if over_limit limit (length ds) then None
        else match ds, drop_while Py_ISSPACE rest with
             | _ :: _, [] => Some (digits_value ds)
             | _, _ => None
             end
    | None => None
    end.
Proof.
  intros Hsp H43 H45 H95. unfold PyLong_FromString.
  cbn [drop_while]. rewrite Hsp.
  rewrite (match_sign_other c buffer (fun r => (false, r)) (fun r => (true, r))
             (false, c :: buffer) H43 H45).
  now rewrite (match_underscore_other c buffer None _ H95).
Qed.

(** [int] on a non-empty run of ASCII digits: its decimal value, unless the
    run is longer than the limit allows. *)
Lemma PyLong_FromString_digits (limit : N) (ds : list N) :
  ds <> [] -> Forall (fun c => Py_ISDIGIT c = true) ds ->
  PyLong_FromString limit ds =
    if over_limit limit (length ds) then None else Some (digits_value ds).
Proof.
  intros Hne Hds. destruct ds as [|c ds]; [congruence|].
  pose proof Hds as Hall. apply Forall_cons in Hds as [Hc _].
  destruct (ascii_digit_facts c Hc) as (Hdigit & _ & _ & Hsame).
  destruct (digit_facts c Hdigit) as (_ & _ & _ & _ & _ & _ & H95 & H43 & H45 & Hsp & _).
  rewrite Hsame in *.
  rewrite (PyLong_FromString_head limit c ds Hsp H43 H45 H95).
  pose proof (scan_int_digits_run 0 (c :: ds) [] ltac:(discriminate) Hall
                ltac:(now left)) as Hscan.
  rewrite app_nil_r in Hscan. rewrite Hscan. reflexivity.
Qed.

(** [int] on a buffer that a question mark cuts short: an error. *)
Lemma PyLong_FromString_cut (limit : N) (ds : list N) :
  Forall (fun c => Py_ISDIGIT c = true) ds ->
  PyLong_FromString limit (ds ++ [63%N]) = None.
Proof.
  intros Hds. destruct ds as [|c ds]; [reflexivity|].
  pose proof Hds as Hall. apply Forall_cons in Hds as [Hc _].
  destruct (ascii_digit_facts c Hc) as (Hdigit & _ & _ & Hsame).
  destruct (digit_facts c Hdigit) as (_ & _ & _ & _ & _ & _ & H95 & H43 & H45 & Hsp & _).
  rewrite Hsame in *. rewrite <- app_comm_cons.
  rewrite (PyLong_FromString_head limit c _ Hsp H43 H45 H95).
  rewrite app_comm_cons.
  rewrite (scan_int_digits_run 0 (c :: ds) [63%N] ltac:(discriminate) Hall
             ltac:(now right)).
  now destruct (over_limit limit (length (c :: ds))).
Qed.

(** On a string that [isdigit] accepts, [int] returns the decimal value when
    every character is a decimal digit and the length is within the limit,
    and raises [ValueError] otherwise. *)
Lemma py_int_isdigit (limit : N) (v : str) :
  isdigit v = true ->
  py_int limit v =
    if forallb is_decimal v && negb (over_limit limit (length v))
    then Some (decimal_value v) else None.
Proof.
  intros Hv. apply isdigit_chars in Hv as [Hne Hv].
  unfold py_int. rewrite (transform_digits v Hv).
  destruct (forallb is_decimal v) eqn:Hdec.
  - rewrite (take_while_all _ _ Hdec), app_nil_r.
    rewrite PyLong_FromString_digits.
    + rewrite length_map. unfold decimal_value.
      now destruct (over_limit limit (length v)).
    + destruct v; [congruence | discriminate].
    + apply Forall_forall. intros a Ha. apply list_elem_of_In, in_map_iff in Ha
        as (c & <- & Hc).
      rewrite Forall_forall in Hv. apply list_elem_of_In in Hc.
      destruct (digit_facts c (Hv c Hc)) as (_ & _ & _ & _ & _ & Hd & _).
      rewrite Hd. rewrite forallb_forall in Hdec. now apply Hdec, list_elem_of_In.
  - cbn [andb]. apply PyLong_FromString_cut.
    apply Forall_forall. intros a Ha. apply list_elem_of_In, in_map_iff in Ha
      as (c & <- & Hc).
    pose proof (take_while_holds is_decimal v) as Htw. rewrite Forall_forall in Htw.
    apply list_elem_of_In in Hc. pose proof (Htw c Hc) as Hcd.
    assert (Hcv : c ∈ v).
    { clear -Hc. induction v as [|x v IH]; simpl in Hc; [inversion Hc|].
      destruct (is_decimal x); [|inversion Hc].
      apply elem_of_cons in Hc as [->|Hc]; [left | right; auto]. }
    rewrite Forall_forall in Hv.
    destruct (digit_facts c (Hv c Hcv)) as (_ & _ & _ & _ & _ & Hd & _).
    now rewrite Hd.
Qed.

(** A string that [isdigit] accepts is never a boolean. *)
Lemma isdigit_not_boolean (v : str) :
  isdigit v = true -> ~ lower v ∈ [lit "true"; lit "false"].
Proof.
  intros Hv. apply isdigit_chars in Hv as [Hne Hv].
  destruct v as [|c v]; [congruence|]. apply Forall_cons in Hv as [Hc _].
  destruct (digit_facts c Hc) as (_ & Hlow & Hsig & Ht & Hf & _).
  unfold lower. cbn [lower_from]. apply N.eqb_neq in Hsig. rewrite Hsig, Hlow.
  intros Hin. apply elem_of_cons in Hin as [Heq|Hin].
  - change (lit "true") with (116%N :: lit "rue") in Heq.
    cbn [app] in Heq. injection Heq as Heq _. congruence.
  - apply list_elem_of_singleton in Hin.
    change (lit "false") with (102%N :: lit "alse") in Hin.
    cbn [app] in Hin. injection Hin as Heq _. congruence.
Qed.

(** The all-digit branch: the integer when every character is a decimal
    digit and the length is within the limit, the uncaught [ValueError]
    otherwise. *)
Lemma coerce_value_isdigit (w : world) (v : str) :
  isdigit v = true ->
  coerce_value w v =
    if forallb is_decimal v && negb (over_limit (int_max_str_digits w) (length v))
    then Ok (VInt (decimal_value v)) else Raise ValueError.
Proof.
  intros Hv. unfold coerce_value.
  rewrite bool_decide_eq_false_2 by now apply isdigit_not_boolean.
  rewrite Hv, (py_int_isdigit _ v Hv).
  now destruct (forallb is_decimal v && negb (over_limit (int_max_str_digits w) (length v))).
Qed.

(** So a value of at most 640 ASCII digits is stored as that integer. *)
Lemma coerce_value_ascii_digits (w : world) (v : str) :
  v <> [] -> Forall (fun c => Py_ISDIGIT c = true) v -> (length v <= 640)%nat ->
  coerce_value w v = Ok (VInt (digits_value v)).
Proof.
  intros Hne Hds Hlen.
  assert (Hv : isdigit v = true).
  { apply isdigit_chars. split; [assumption|]. eapply Forall_impl; [exact Hds|].
    intros c Hc. now apply ascii_digit_facts in Hc. }
  assert (Hdec : forallb is_decimal v = true).
  { apply forallb_forall. intros c Hc. rewrite Forall_forall in Hds.
    apply list_elem_of_In, Hds, ascii_digit_facts in Hc. tauto. }
  assert (Hlim : over_limit (int_max_str_digits w) (length v) = false).
  { unfold over_limit, PY_LONG_MAX_STR_DIGITS_THRESHOLD.
    replace (640 <? N.of_nat (length v))%N with false; [reflexivity|].
    symmetry. apply N.ltb_ge. lia. }
  rewrite (coerce_value_isdigit w v Hv), Hdec, Hlim. cbn [andb negb].
  unfold decimal_value. do 3 f_equal.
  clear -Hds. induction Hds as [|c v Hc Hv IH]; [reflexivity|].
  cbn [List.map]. rewrite IH. f_equal. now apply ascii_digit_facts in Hc.
Qed.

(** The only exception of the chain is the [ValueError] of [int], raised on
    a string that [isdigit] accepts; a failed [float] never escapes. *)
Lemma coerce_value_raises (w : world) (v : str) (e : exn) :
  coerce_value w v = Raise e <->
  e = ValueError /\
  ~ lower v ∈ [lit "true"; lit "false"] /\ isdigit v = true /\
  py_int (int_max_str_digits w) v = None.
Proof.
  unfold coerce_value. case_bool_decide as Hb.
  - split; [discriminate | intros (_ & Hn & _); contradiction].
  - destruct (isdigit v).
    + destruct (py_int (int_max_str_digits w) v).
      * split; [discriminate | intros (_ & _ & _ & ?); discriminate].
      * split; [intros [= <-]; auto | intros (-> & _); reflexivity].
    + destruct (py_float v);
        (split; [discriminate | intros (_ & _ & ? & _); discriminate]).
Qed.

Lemma coerce_value_never_exits (w : world) (v : str) (code : Z) :
  coerce_value w v <> Exit code.
Proof.
  unfold coerce_value. case_bool_decide; [discriminate|].
  destruct (isdigit v); [destruct (py_int _ v) | destruct (py_float v)]; discriminate.
Qed.

(** The boolean test ignores the letter case. *)
Lemma boolean_values_in_any_case (w : world) :
  coerce_value w (lit "true") = Ok (VBool true) /\
  coerce_value w (lit "TRUE") = Ok (VBool true) /\
  coerce_value w (lit "tRuE") = Ok (VBool true) /\
  coerce_value w (lit "false") = Ok (VBool false) /\
  coerce_value w (lit "False") = Ok (VBool false).
Proof. repeat split; vm_compute; reflexivity. Qed.

(** The precedence of the chain, branch by branch. *)
Lemma coerce_value_precedence (w : world) (v : str) :
  (lower v ∈ [lit "true"; lit "false"] ->
     coerce_value w v = Ok (VBool (bool_decide (lower v = lit "true")))) /\
  (~ lower v ∈ [lit "true"; lit "false"] -> isdigit v = true ->
     forall n, py_int (int_max_str_digits w) v = Some n ->
     coerce_value w v = Ok (VInt n)) /\
  (~ lower v ∈ [lit "true"; lit "false"] -> isdigit v = false ->
     forall x, py_float v = Some x -> coerce_value w v = Ok (VFloat x)) /\
  (~ lower v ∈ [lit "true"; lit "false"] -> isdigit v = false ->
     py_float v = None -> coerce_value w v = Ok (VStr v)).
Proof.
  unfold coerce_value. repeat split.
  - intros H. now rewrite bool_decide_eq_true_2.
  - intros H Hd n Hn. rewrite bool_decide_eq_false_2 by assumption.
    now rewrite Hd, Hn.
  - intros H Hd x Hx. rewrite bool_decide_eq_false_2 by assumption.
    now rewrite Hd, Hx.
  - intros H Hd Hx. rewrite bool_decide_eq_false_2 by assumption.
    now rewrite Hd, Hx.
Qed.

(** ** The settings loop *)

Section Settings.

Context {APIRouter : Type}.
Implicit Types (p : @process APIRouter) (d : gmap (list N) pyvalue).

(** An entry with an equals sign stores the converted value under the
    stripped key, cutting at the first equals sign. *)
Lemma parse_setting_well_formed (w : world) d (k v : str) p :
  ~ EQUALS ∈ k ->
  parse_setting w d (k ++ EQUALS :: v) p =
    match coerce_value w v with
    | Ok x => (Ok (<[ strip k := x ]> d), p)
    | Exit code => (Exit code, p)
    | Raise e => (Raise e, p)
    end.
Proof.
  intros Hk. unfold parse_setting.
  assert (Hin : str_in (lit "=") (k ++ EQUALS :: v) = true).
  { rewrite lit_equals. apply str_in_char, elem_of_app. right. apply elem_of_cons. now left. }
  rewrite Hin, (split1_first EQUALS k v Hk).
  destruct (coerce_value w v); reflexivity.
Qed.

(** An entry without one changes nothing and logs the warning. *)
Lemma parse_setting_malformed (w : world) d (setting : str) p :
  well_formed setting = false ->
  parse_setting w d setting p =
    (Ok d, {| logging := logging p;
              trace := trace p ++ [invalid_setting_warning setting] |}).
Proof.
  intros Hwf. unfold parse_setting. unfold well_formed in Hwf. rewrite Hwf.
  reflexivity.
Qed.

(** An accepted entry is a key, an equals sign and a value. *)
Lemma well_formed_unpack (setting : str) :
  well_formed setting = true ->
  exists k v, setting = k ++ EQUALS :: v /\ ~ EQUALS ∈ k /\
              split1 EQUALS setting = [k; v].
Proof.
  unfold well_formed. rewrite lit_equals, str_in_char. intros Hin.
  destruct (split1_unpack EQUALS setting Hin) as (k & v & Hs & Heq & Hk).
  exists k, v. auto.
Qed.

(** What a completed step of the loop did. *)
Lemma parse_setting_ok_inv (w : world) d (setting : str) p d' p' :
  parse_setting w d setting p = (Ok d', p') ->
  (well_formed setting = false /\ d' = d /\
   p' = {| logging := logging p;
           trace := trace p ++ [invalid_setting_warning setting] |}) \/
  (well_formed setting = true /\ p' = p /\
   exists k v x, split1 EQUALS setting = [k; v] /\ coerce_value w v = Ok x /\
                 d' = <[ strip k := x ]> d).
Proof.
  destruct (well_formed setting) eqn:Hwf.
  - destruct (well_formed_unpack setting Hwf) as (k & v & -> & Hk & Hs).
    rewrite (parse_setting_well_formed w d k v p Hk).
    destruct (coerce_value w v) as [x| |] eqn:Hx; try discriminate.
    intros [= <- <-]. right. repeat split. exists k, v, x. auto.
  - rewrite (parse_setting_malformed w d setting p Hwf).
    intros [= <- <-]. left. auto.
Qed.

Lemma parse_settings_list_cons (w : world) d (setting : str) (rest : list str) p :
  parse_settings_list w d (setting :: rest) p =
    match parse_setting w d setting p with
    | (Ok d', p') => parse_settings_list w d' rest p'
    | (Exit code, p') => (Exit code, p')
    | (Raise e, p') => (Raise e, p')
    end.
Proof. reflexivity. Qed.

(** A completed loop leaves the logging configuration alone and has logged
    one warning for each entry without an equals sign, in order, and nothing
    else. *)
Lemma parse_settings_list_trace (w : world) (entries : list str) d p m p' :
  parse_settings_list w d entries p = (Ok m, p') ->
  logging p' = logging p /\
  trace p' = trace p ++
    (invalid_setting_warning <$> filter (fun e => well_formed e = false) entries).
Proof.
  revert d p. induction entries as [|e entries IH]; intros d p.
  - intros [= <- <-]. simpl. now rewrite app_nil_r.
  - rewrite parse_settings_list_cons.
    destruct (parse_setting w d e p) as [[d1| |] p1] eqn:Hstep; try discriminate.
    intros Hrest. apply IH in Hrest as [Hlog Htr].
    apply parse_setting_ok_inv in Hstep as [(Hwf & -> & ->)|(Hwf & -> & _)].
    + rewrite filter_cons_True by assumption. simpl in *.
      split; [assumption|]. now rewrite Htr, <- app_assoc.
    + rewrite filter_cons_False by congruence. auto.
Qed.

(** Entries that do not write a key leave its binding as it was. *)
Lemma parse_settings_list_other_keys (w : world) (entries : list str) (key : str)
    d p m p' :
  (forall e k v, e ∈ entries -> well_formed e = true ->
                 split1 EQUALS e = [k; v] -> strip k <> key) ->
  parse_settings_list w d entries p = (Ok m, p') ->
  m !! key = d !! key.
Proof.
  revert d p. induction entries as [|e entries IH]; intros d p Hother.
  - now intros [= <- <-].
  - rewrite parse_settings_list_cons.
    destruct (parse_setting w d e p) as [[d1| |] p1] eqn:Hstep; try discriminate.
    intros Hrest. apply IH in Hrest.
    2:{ intros e' k v He'. apply Hother. apply elem_of_cons. now right. }
    rewrite Hrest.
    apply parse_setting_ok_inv in Hstep as [(_ & -> & _)|(Hwf & _ & k & v & x & Hs & _ & ->)].
    + reflexivity.
    + apply lookup_insert_ne. eapply Hother; eauto. apply elem_of_cons. now left.
Qed.

(** The loop over a concatenation is the loop over its parts in sequence. *)
Lemma parse_settings_list_app (w : world) (es1 es2 : list str) d p :
  parse_settings_list w d (es1 ++ es2) p =
    match parse_settings_list w d es1 p with
    | (Ok d', p') => parse_settings_list w d' es2 p'
    | (Exit code, p') => (Exit code, p')
    | (Raise e, p') => (Raise e, p')
    end.
Proof.
  revert d p. induction es1 as [|e es1 IH]; intros d p; [reflexivity|].
  rewrite <- app_comm_cons, !parse_settings_list_cons.
  destruct (parse_setting w d e p) as [[d1| |] p1]; auto.
Qed.

(** The loop never leaves through [typer.Exit]. *)
Lemma parse_settings_list_never_exits (w : world) (entries : list str) d p code p' :
  parse_settings_list w d entries p <> (Exit code, p').
Proof.
  revert d p. induction entries as [|e entries IH]; intros d p; [discriminate|].
  rewrite parse_settings_list_cons.
  destruct (parse_setting w d e p) as [[d1| |] p1] eqn:Hstep; [apply IH| |discriminate].
  exfalso. unfold parse_setting in Hstep.
  destruct (str_in (lit "=") e); [|discriminate].
  destruct (split1 EQUALS e) as [|k [|v [|? ?]]]; try discriminate.
  destruct (coerce_value w v) eqn:Hv; try discriminate.
  now apply coerce_value_never_exits in Hv.
Qed.

(** When the value of every accepted entry converts, the loop completes:
    the entries without an equals sign cost a warning each and nothing
    more. *)
Lemma malformed_entries_are_skipped (w : world) (entries : list str) d p :
  (forall e k v, e ∈ entries -> well_formed e = true ->
                 split1 EQUALS e = [k; v] -> exists x, coerce_value w v = Ok x) ->
  exists m,
    parse_settings_list w d entries p =
      (Ok m, {| logging := logging p;
                trace := trace p ++
                  (invalid_setting_warning <$>
                     filter (fun e => well_formed e = false) entries) |}).
Proof.
  revert d p. induction entries as [|e entries IH]; intros d p Hconv.
  - exists d. simpl. rewrite app_nil_r. now destruct p.
  - rewrite parse_settings_list_cons.
    destruct (well_formed e) eqn:Hwf.
    + destruct (well_formed_unpack e Hwf) as (k & v & He & Hk & Hs).
      destruct (Hconv e k v) as [x Hx]; [apply elem_of_cons; now left | assumption.. |].
      rewrite He, (parse_setting_well_formed w d k v p Hk), Hx, <- He.
      rewrite filter_cons_False by congruence.
      apply IH. intros e' k' v' He'. apply Hconv. apply elem_of_cons. now right.
    + rewrite (parse_setting_malformed w d e p Hwf).
      rewrite filter_cons_True by assumption.
      destruct (IH d {| logging := logging p;
                        trace := trace p ++ [invalid_setting_warning e] |}) as [m Hm].
      { intros e' k' v' He'. apply Hconv. apply elem_of_cons. now right. }
      exists m. rewrite Hm. simpl. now rewrite <- app_assoc.
Qed.

(** A key bound in a finite map occurs once among its bindings. *)
Lemma map_binding_once (m : gmap (list N) pyvalue) (key : list N) (x : pyvalue) :
  m !! key = Some x ->
  length (filter (fun kv => kv.1 = key) (map_to_list m)) = 1%nat.
Proof.
  intros Hm. apply elem_of_map_to_list in Hm.
  pose proof (NoDup_fst_map_to_list m) as Hnd.
  induction (map_to_list m) as [|[k y] l IH]; [inversion Hm|].
  rewrite fmap_cons in Hnd. apply NoDup_cons in Hnd as [Hk Hnd].
  rewrite filter_cons. simpl. destruct (decide (k = key)) as [->|Hne].
  - simpl. f_equal. apply length_zero_iff_nil.
    apply elem_of_nil_inv. intros [k' y'] Hin.
    apply list_elem_of_filter in Hin as [Heq Hin]. simpl in Heq. subst k'.
    apply Hk. apply list_elem_of_fmap. exists (key, y'). auto.
  - apply elem_of_cons in Hm as [[= -> ->]|Hm]; [congruence|]. now apply IH.
Qed.

End Settings.

(** ** Claims about the settings coercion *)

(** C1 (code defect).  The example of the specification holds: the string
    [k1=true,k2=3,k3=2.5,k4=hello] gives a boolean, the integer 3, the float
    2.5 and the string [hello].  The rule that an all-digit value becomes an
    integer does not hold of every value: SUPERSCRIPT TWO (U+00B2) passes
    [isdigit()], [int] rejects it, and the [ValueError] escapes [run]. *)
Theorem C1_all_digit_value_without_integer :
  parse_settings example_world (Some (lit "k1=true,k2=3,k3=2.5,k4=hello")) fresh_process =
    (Ok (<[ lit "k1" := VBool true ]> (<[ lit "k2" := VInt 3 ]>
          (<[ lit "k3" := VFloat (dyadic 5 (-1)) ]> (<[ lit "k4" := VStr (lit "hello") ]> ∅)))),
     fresh_process) /\
  isdigit [178%N] = true /\
  py_int default_max_str_digits [178%N] = None /\
  parse_settings example_world (Some (lit "k=" ++ [178%N])) fresh_process =
    (Raise ValueError, fresh_process).
Proof. repeat split; vm_compute; reflexivity. Qed.

(** C3 (code defect).  The example of the specification holds: in
    [a=1,bad,c=2] the entry [bad] is dropped with a warning that names it and
    [a] and [c] are stored.  A malformed entry next to the accepted entry
    [a=²] is another matter: [int] raises on the value before [bad] is
    reached, so no warning is logged, nothing is stored and the parse ends in
    an uncaught [ValueError]. *)
Theorem C3_malformed_entry_next_to_digit_value :
  parse_settings example_world (Some (lit "a=1,bad,c=2")) fresh_process =
    (Ok (<[ lit "a" := VInt 1 ]> (<[ lit "c" := VInt 2 ]> ∅)),
     {| logging := fresh_logging;
        trace := [invalid_setting_warning (lit "bad")] |}) /\
  candidate_entries (Some (lit "a=" ++ [178%N] ++ lit ",bad")) =
    [lit "a=" ++ [178%N]; lit "bad"] /\
  well_formed (lit "a=" ++ [178%N]) = true /\
  well_formed (lit "bad") = false /\
  parse_settings example_world (Some (lit "a=" ++ [178%N] ++ lit ",bad")) fresh_process =
    (Raise ValueError, fresh_process).
Proof. repeat split; vm_compute; reflexivity. Qed.

(** C4 (code defect).  The [float] failure is caught and keeps the string,
    but the [int] call is outside the [try]: a value of digits that are not
    decimals (here [1²]), or of more decimal digits than
    [sys.get_int_max_str_digits()] allows (here 4301 sevens), raises a
    [ValueError] that aborts the parse. *)
Theorem C4_int_conversion_aborts_the_parse :
  coerce_value example_world (lit "1.2.3") = Ok (VStr (lit "1.2.3")) /\
  isdigit (lit "1" ++ [178%N]) = true /\
  coerce_value example_world (lit "1" ++ [178%N]) = Raise ValueError /\
  parse_settings example_world (Some (lit "n=1" ++ [178%N])) fresh_process =
    (Raise ValueError, fresh_process) /\
  coerce_value example_world (repeat 55%N 4301) = Raise ValueError.
Proof. repeat split; vm_compute; reflexivity. Qed.

(** C5 (counterexample).  The value is not trimmed before the tests: the
    padded [ true] stays a string where [true] is a boolean, and the padded
    [ 3] becomes the float 3.0 where [3] is the integer 3. *)
Lemma C5_padded_value_is_not_trimmed :
  strip (lit " true") = lit "true" /\
  coerce_value example_world (lit " true") = Ok (VStr (lit " true")) /\
  coerce_value example_world (strip (lit " true")) = Ok (VBool true) /\
  strip (lit " 3") = lit "3" /\
  coerce_value example_world (lit " 3") = Ok (VFloat (dyadic 3 0)) /\
  coerce_value example_world (strip (lit " 3")) = Ok (VInt 3) /\
  parse_settings example_world (Some (lit "k= true")) fresh_process =
    (Ok (<[ lit "k" := VStr (lit " true") ]> ∅), fresh_process).
Proof. repeat split; vm_compute; reflexivity. Qed.

(** C5 (amended).  For an entry [k=v] the value is stored under [k.strip()].
    The value itself is tested untrimmed: one with leading or trailing
    whitespace is never a boolean or an integer; it is the float that
    [float(v)] returns when that call accepts it, and the string [v],
    whitespace included, otherwise. *)
Theorem C5_key_stripped_value_untrimmed {APIRouter : Type} (w : world)
    (d : gmap (list N) pyvalue) (k v : str) (p : @process APIRouter) :
  ~ EQUALS ∈ k ->
  (forall x, coerce_value w v = Ok x ->
     parse_setting w d (k ++ EQUALS :: v) p = (Ok (<[ strip k := x ]> d), p)) /\
  (strip v <> v ->
     coerce_value w v =
       Ok (match py_float v with Some x => VFloat x | None => VStr v end)).
Proof.
  intros Hk. split.
  - intros x Hx. now rewrite (parse_setting_well_formed w d k v p Hk), Hx.
  - apply coerce_value_padded.
Qed.

Lemma C5_key_stripped_value_untrimmed_witness :
  parse_setting example_world ∅ (lit " key = true") fresh_process =
    (Ok (<[ lit "key" := VStr (lit " true") ]> ∅), fresh_process) /\
  coerce_value example_world (lit " 2.5 ") = Ok (VFloat (dyadic 5 (-1))).
Proof.
  destruct (C5_key_stripped_value_untrimmed example_world ∅ (lit " key ")
              (lit " true") fresh_process) as [Hkey _].
  { vm_compute. intros H. apply list_elem_of_In in H. simpl in H. intuition discriminate. }
  destruct (C5_key_stripped_value_untrimmed (APIRouter := unit) example_world ∅ (lit "k")
              (lit " 2.5 ") fresh_process) as [_ Hraw].
  { vm_compute. intros H. apply list_elem_of_In in H. simpl in H. intuition discriminate. }
  split.
  - apply (Hkey (VStr (lit " true"))). vm_compute. reflexivity.
  - rewrite Hraw; [vm_compute; reflexivity | vm_compute; discriminate].
Defined.

(** C6 (counterexample).  The empty settings string is not treated as one
    entry: line 131 skips it, so the loop visits no entry and logs no
    warning, where the whole string taken as one entry would be an entry
    without an equals sign. *)
Lemma C6_empty_settings_string_has_no_entry :
  candidate_entries (Some (lit "")) = [] /\
  spec_candidate_entries (lit "") = [lit ""] /\
  candidate_entries (Some (lit "")) <> spec_candidate_entries (lit "") /\
  parse_settings example_world (Some (lit "")) fresh_process = (Ok ∅, fresh_process) /\
  parse_settings_list example_world ∅ (spec_candidate_entries (lit "")) fresh_process =
    (Ok ∅, {| logging := fresh_logging; trace := [invalid_setting_warning (lit "")] |}).
Proof. repeat split; try (vm_compute; reflexivity). vm_compute. discriminate. Qed.

(** C6 (amended).  A non-empty settings string is cut at every comma when it
    contains one and is a single entry otherwise: the entries joined by
    commas are the string again, none contains a comma, and there is one more
    of them than commas.  An entry is cut at its first equals sign only:
    whatever follows, further equals signs included, is the value.  The empty
    settings string has no entry. *)
Theorem C6_entries_and_first_equals_sign {APIRouter : Type} (w : world)
    (d : gmap (list N) pyvalue) (settings k v : str) (p : @process APIRouter) :
  settings <> [] ->
  ~ EQUALS ∈ k ->
  let entries := candidate_entries (Some settings) in
  (COMMA ∈ settings -> entries = split COMMA settings) /\
  (~ COMMA ∈ settings -> entries = [settings]) /\
  join COMMA entries = settings /\
  Forall (fun e => ~ COMMA ∈ e) entries /\
  length entries = S (length (filter (fun c => c = COMMA) settings)) /\
  split1 EQUALS (k ++ EQUALS :: v) = [k; v] /\
  parse_setting w d (k ++ EQUALS :: v) p =
    match coerce_value w v with
    | Ok x => (Ok (<[ strip k := x ]> d), p)
    | Exit code => (Exit code, p)
    | Raise e => (Raise e, p)
    end /\
  candidate_entries (Some []) = [].
Proof.
  intros Hne Hk entries.
  assert (Hentries : entries = split COMMA settings).
  { unfold entries, candidate_entries, settings_list.
    destruct settings as [|c s]; [congruence|]. cbn [str_truthy].
    rewrite lit_comma. destruct (str_in [COMMA] (c :: s)) eqn:Hin; [reflexivity|].
    symmetry. apply split_without_separator. now apply str_in_char_false. }
  repeat split.
  - intros _. exact Hentries.
  - intros Hn. rewrite Hentries. now apply split_without_separator.
  - rewrite Hentries. apply join_split.
  - rewrite Hentries. apply split_fields.
  - rewrite Hentries. apply split_length.
  - now apply split1_first.
  - now apply parse_setting_well_formed.
Qed.

Lemma C6_entries_and_first_equals_sign_witness :
  candidate_entries (Some (lit "a=b=c,d")) = [lit "a=b=c"; lit "d"] /\
  split1 EQUALS (lit "a=b=c") = [lit "a"; lit "b=c"] /\
  parse_setting example_world ∅ (lit "a=b=c") fresh_process =
    (Ok (<[ lit "a" := VStr (lit "b=c") ]> ∅), fresh_process).
Proof.
  destruct (C6_entries_and_first_equals_sign example_world ∅ (lit "a=b=c,d")
              (lit "a") (lit "b=c") fresh_process)
    as (Hsplit & _ & _ & _ & _ & Hfirst & Hparse & _).
  { vm_compute. discriminate. }
  { vm_compute. intros H. apply list_elem_of_In in H. simpl in H. intuition discriminate. }
  split; [|split].
  - rewrite Hsplit; [vm_compute; reflexivity|].
    apply list_elem_of_In. vm_compute. auto 10.
  - exact Hfirst.
  - exact Hparse.
Defined.

(** C7.  The value [-5] fails the all-digit test, as does every string that
    starts with a minus sign, and [float] accepts it: the stored value is
    the float -5.0. *)
Theorem C7_negative_five_is_a_float :
  isdigit (lit "-5") = false /\
  (forall s : str, isdigit (45%N :: s) = false) /\
  py_float (lit "-5") = Some (dyadic (-5) 0) /\
  (forall w, coerce_value w (lit "-5") = Ok (VFloat (dyadic (-5) 0))) /\
  parse_settings example_world (Some (lit "k=-5")) fresh_process =
    (Ok (<[ lit "k" := VFloat (dyadic (-5) 0) ]> ∅), fresh_process).
Proof.
  repeat split; try (intros; vm_compute; reflexivity).
Qed.

(** C10 (code defect).  A repeated key is handled as the claim says when the
    parse completes: in [a=1, a =2] the key [a] is bound once, to the integer
    2 of the later entry, and nothing is logged.  But there need not be a
    resulting mapping: in [a=1,a=²] the key [a] is written by two accepted
    entries, and the value of the second passes [isdigit()] and is refused by
    [int], so the parse ends in an uncaught [ValueError] and no mapping is
    returned. *)
Theorem C10_repeated_key_with_rejected_value :
  parse_settings example_world (Some (lit "a=1, a =2")) fresh_process =
    (Ok (<[ lit "a" := VInt 2 ]> ∅), fresh_process) /\
  candidate_entries (Some (lit "a=1,a=" ++ [178%N])) =
    [lit "a=1"; lit "a=" ++ [178%N]] /\
  well_formed (lit "a=1") = true /\
  well_formed (lit "a=" ++ [178%N]) = true /\
  split1 EQUALS (lit "a=1") = [lit "a"; lit "1"] /\
  split1 EQUALS (lit "a=" ++ [178%N]) = [lit "a"; [178%N]] /\
  isdigit [178%N] = true /\
  parse_settings example_world (Some (lit "a=1,a=" ++ [178%N])) fresh_process =
    (Raise ValueError, fresh_process).
Proof. repeat split; vm_compute; reflexivity. Qed.

(** ** Logging policy *)



(** ** Service assembly and startup *)

Section Service.

Context {APIRouter : Type}.
Variable create_router :
  option (list N) -> option float -> option (gmap (list N) pyvalue) ->
  bool -> bool -> APIRouter.
Variable uvicorn :
  @FastAPI APIRouter -> list N -> Z -> list N -> logging_state ->
  outcome unit * logging_state.
Implicit Types (p : @process APIRouter) (d : gmap (list N) pyvalue).

(** C9.  Whatever the five values are, [create_app] returns an application
    whose only middleware is the permissive cross-origin policy (all
    origins, methods and headers, credentials allowed) and whose only routes
    are those the route factory returned; the factory is called once, with
    the five values as given; title, description and version are the same
    constants for every configuration; the logging configuration is not
    touched. *)
Theorem C9_create_app_assembles_the_service (project_path : option (list N))
    (timeout : option float) (additional_settings : option (gmap (list N) pyvalue))
    (debug include_logs : bool) p :
  exists app,
    create_app create_router project_path timeout additional_settings debug
      include_logs p =
      (Ok app,
       {| logging := logging p;
          trace := trace p ++
            [RouterCreated project_path timeout additional_settings debug include_logs] |}) /\
    user_middleware app = [permissive_cors] /\
    allow_origins permissive_cors = [lit "*"] /\
    allow_methods permissive_cors = [lit "*"] /\
    allow_headers permissive_cors = [lit "*"] /\
    allow_credentials permissive_cors = true /\
    included_routers app =
      [create_router project_path timeout additional_settings debug include_logs] /\
    app_title app = lit "ScrapyRT-Compatible API" /\
    app_description app =
      lit "FastAPI wrapper for Scrapy spiders with ScrapyRT compatibility" /\
    app_version app = lit "1.0.0".
Proof. eexists. repeat split. Qed.

(** The settings loop only ever logs, however it ends. *)
Lemma parse_settings_list_only_logs (w : world) (entries : list (list N)) d p :
  exists logs,
    Forall (fun ev => is_logged ev = true) logs /\
    (parse_settings_list w d entries p).2 =
      {| logging := logging p; trace := trace p ++ logs |}.
Proof.
  revert d p. induction entries as [|e entries IH]; intros d p.
  - exists []. split; [constructor|]. simpl. rewrite app_nil_r. now destruct p.
  - rewrite parse_settings_list_cons.
    destruct (well_formed e) eqn:Hwf.
    + destruct (well_formed_unpack e Hwf) as (k & v & -> & Hk & _).
      rewrite (parse_setting_well_formed w d k v p Hk).
      destruct (coerce_value w v) as [x| |].
      * apply IH.
      * exists []. split; [constructor|]. simpl. rewrite app_nil_r. now destruct p.
      * exists []. split; [constructor|]. simpl. rewrite app_nil_r. now destruct p.
    + rewrite (parse_setting_malformed w d e p Hwf).
      destruct (IH d {| logging := logging p;
                        trace := trace p ++ [invalid_setting_warning e] |})
        as (logs & Hlogs & Heq).
      exists (invalid_setting_warning e :: logs). split.
      * constructor; [reflexivity | assumption].
      * rewrite Heq. simpl. now rewrite <- app_assoc.
Qed.

Lemma startup_logs_logged (o : options) (path : list N) d :
  Forall (fun ev : @event APIRouter => is_logged ev = true) (startup_logs o path d).
Proof.
  unfold startup_logs. repeat (apply Forall_app; split); repeat constructor.
  - destruct (dict_truthy d); repeat constructor.
  - destruct (opt_timeout o) as [t|]; [destruct (float_truthy t)|]; repeat constructor.
Qed.

(** The settings loop raises nothing but the [ValueError] of [int]. *)
Lemma parse_settings_list_raises (w : world) (entries : list (list N)) d p
    (e : exn) p1 :
  parse_settings_list w d entries p = (Raise e, p1) -> e = ValueError.
Proof.
  revert d p. induction entries as [|s entries IH]; intros d p; [discriminate|].
  rewrite parse_settings_list_cons.
  destruct (well_formed s) eqn:Hwf.
  - destruct (well_formed_unpack s Hwf) as (k & v & -> & Hk & _).
    rewrite (parse_setting_well_formed w d k v p Hk).
    destruct (coerce_value w v) as [x|code|e'] eqn:Hv.
    + apply IH.
    + discriminate.
    + intros [= <- _]. now apply coerce_value_raises in Hv.
  - rewrite (parse_setting_malformed w d s p Hwf). apply IH.
Qed.

(** [run] when the settings loop raises: it stops where the loop stopped. *)
Lemma run_after_failed_settings (w : world) (o : options) p p1 (e : exn) :
  parse_settings w (opt_settings o) (configured (opt_debug o) p) = (Raise e, p1) ->
  run create_router uvicorn w o p = (Raise e, p1).
Proof.
  intros Hparse. unfold run. cbv [mbind M_bind bind configure].
  fold (configured (opt_debug o) p). now rewrite Hparse.
Qed.

(** [run], once the settings are parsed: the working directory is looked up
    when no project is given, the path check decides between leaving with
    code 1 and assembling, and the run ends as the server call ends. *)
Lemma run_after_settings (w : world) (o : options) p d p1 :
  parse_settings w (opt_settings o) (configured (opt_debug o) p) = (Ok d, p1) ->
  run create_router uvicorn w o p =
    match project_path w (opt_project o) with
    | Raises e => (Raise e, p1)
    | Returns path =>
        if isdir w path then
          (result_of (server_call create_router uvicorn o path d (logging p1)).1,
           {| logging := (server_call create_router uvicorn o path d (logging p1)).2;
              trace := trace p1 ++ startup_logs o path d ++
                       startup_calls create_router o path d |})
        else
          (Exit 1,
           {| logging := logging p1;
              trace := trace p1 ++ [missing_project_error path] |})
    end.
Proof.
  intros Hparse. unfold run.
  cbv [mbind M_bind bind configure]. fold (configured (opt_debug o) p).
  rewrite Hparse. unfold call.
  destruct (project_path w (opt_project o)) as [path|e]; cbn [result_of];
    [|reflexivity].
  destruct (isdir w path) eqn:Hdir; cbn [negb]; [|reflexivity].
  unfold startup_logs, startup_calls, server_call, served_app, server_log_level.
  destruct (dict_truthy d); destruct (opt_timeout o) as [t|];
    try destruct (float_truthy t);
    cbv [log emit when create_app call_create_router uvicorn_run mret M_ret ret
         mbind M_bind bind trace logging];
    cbn [app]; rewrite <- ?app_assoc; reflexivity.
Qed.




End Service.




(** * Further properties *)

(** ** The settings loop *)

(** Which keys a completed loop has bound: those already bound and the
    stripped keys of the accepted entries. *)
Lemma parse_settings_list_keys {APIRouter : Type} (w : world)
    (entries : list (list N)) (key : list N) (d m : gmap (list N) pyvalue)
    (p p' : @process APIRouter) :
  parse_settings_list w d entries p = (Ok m, p') ->
  (is_Some (m !! key) <->
   is_Some (d !! key) \/
   exists e k v, e ∈ entries /\ well_formed e = true /\
                 split1 EQUALS e = [k; v] /\ strip k = key).
Proof.
  revert d p. induction entries as [|e entries IH]; intros d p.
  - intros [= <- <-]. split; [auto|]. intros [H|(e & k & v & He & _)]; [auto|].
    inversion He.
  - rewrite parse_settings_list_cons.
    destruct (parse_setting w d e p) as [[d1| |] p1] eqn:Hstep; try discriminate.
    intros Hrest. rewrite (IH _ _ Hrest).
    apply parse_setting_ok_inv in Hstep
      as [(Hwf & -> & _)|(Hwf & _ & k & v & x & Hs & _ & ->)].
    + split.
      * intros [H|(e' & k & v & He' & Hrest')]; [auto|].
        right. exists e', k, v. split; [apply elem_of_cons; auto | auto].
      * intros [H|(e' & k & v & He' & Hwf' & Hrest')]; [auto|].
        apply elem_of_cons in He' as [->|He']; [congruence|].
        right. exists e', k, v. auto.
    + split.
      * intros [H|(e' & k' & v' & He' & Hrest')].
        -- rewrite lookup_insert in H. case_decide as Hk; [|auto].
           right. exists e, k, v. split; [apply elem_of_cons; auto | auto].
        -- right. exists e', k', v'. split; [apply elem_of_cons; auto | auto].
      * intros [H|(e' & k' & v' & He' & Hwf' & Hs' & Hk')].
        -- left. rewrite lookup_insert. case_decide; [eauto | assumption].
        -- apply elem_of_cons in He' as [->|He'].
           ++ left. rewrite Hs in Hs'. injection Hs' as <- <-.
              rewrite Hk'. rewrite lookup_insert_eq. eauto.
           ++ right. exists e', k', v'. auto.
Qed.

(** X1.  The keys of the mapping a completed parse returns are exactly the
    stripped keys of the entries that contain an equals sign; the mapping is
    empty exactly when no entry contains one. *)
Theorem X1_keys_of_the_parsed_settings {APIRouter : Type} (w : world)
    (settings : option (list N)) (m : gmap (list N) pyvalue)
    (p p' : @process APIRouter) :
  parse_settings w settings p = (Ok m, p') ->
  (forall key,
     is_Some (m !! key) <->
     exists e k v, e ∈ candidate_entries settings /\ well_formed e = true /\
                   split1 EQUALS e = [k; v] /\ strip k = key) /\
  (m = ∅ <-> Forall (fun e => well_formed e = false) (candidate_entries settings)).
Proof.
  intros Hparse. unfold parse_settings in Hparse.
  assert (Hkeys : forall key,
     is_Some (m !! key) <->
     exists e k v, e ∈ candidate_entries settings /\ well_formed e = true /\
                   split1 EQUALS e = [k; v] /\ strip k = key).
  { intros key. rewrite (parse_settings_list_keys w _ key _ _ _ _ Hparse).
    rewrite lookup_empty. split; [intros [[x Hx]|H]; [discriminate | exact H] | auto]. }
  split; [exact Hkeys|]. split.
  - intros ->. apply Forall_forall. intros e He.
    destruct (well_formed e) eqn:Hwf; [|reflexivity]. exfalso.
    destruct (well_formed_unpack e Hwf) as (k & v & _ & _ & Hs).
    assert (Hsome : is_Some ((∅ : gmap (list N) pyvalue) !! strip k)).
    { apply Hkeys. exists e, k, v. auto. }
    rewrite lookup_empty in Hsome. destruct Hsome; discriminate.
  - intros Hall. apply map_eq. intros key. rewrite lookup_empty.
    destruct (m !! key) as [x|] eqn:Hx; [|reflexivity]. exfalso.
    assert (Hsome : is_Some (m !! key)) by eauto.
    apply Hkeys in Hsome as (e & k & v & He & Hwf & _).
    rewrite Forall_forall in Hall. rewrite (Hall e He) in Hwf. discriminate.
Qed.

Lemma X1_keys_of_the_parsed_settings_witness :
  (forall key,
     is_Some ((<[ lit "a" := VInt 1 ]> (<[ lit "c" := VInt 2 ]> ∅)
                : gmap (list N) pyvalue) !! key) <->
     exists e k v, e ∈ candidate_entries (Some (lit "a=1,bad, c =2")) /\
                   well_formed e = true /\
                   split1 EQUALS e = [k; v] /\ strip k = key) /\
  ((<[ lit "a" := VInt 1 ]> (<[ lit "c" := VInt 2 ]> ∅) : gmap (list N) pyvalue) = ∅ <->
   Forall (fun e => well_formed e = false)
     (candidate_entries (Some (lit "a=1,bad, c =2")))).
Proof.
  apply (X1_keys_of_the_parsed_settings example_world (Some (lit "a=1,bad, c =2"))
           _ fresh_process
           {| logging := fresh_logging;
              trace := [invalid_setting_warning (lit "bad")] |}).
  vm_compute. reflexivity.
Defined.

(** X2.  The parse stops at the first value that [int] rejects: a value that
    passes [isdigit()] and holds a digit that is no decimal digit, or more
    digits than the limit allows.  The [ValueError] leaves the loop with the
    warnings of the malformed entries before it already logged; the entries
    after it are never looked at, and no mapping is returned. *)
Theorem X2_parse_stops_at_the_first_rejected_value {APIRouter : Type} (w : world)
    (settings : list N) (before after : list (list N)) (key value : list N)
    (p : @process APIRouter) :
  candidate_entries (Some settings) = before ++ (key ++ EQUALS :: value) :: after ->
  ~ EQUALS ∈ key ->
  isdigit value = true ->
  forallb is_decimal value &&
    negb (over_limit (int_max_str_digits w) (length value)) = false ->
  (forall e k v, e ∈ before -> well_formed e = true ->
                 split1 EQUALS e = [k; v] -> coerce_value w v <> Raise ValueError) ->
  parse_settings w (Some settings) p =
    (Raise ValueError,
     {| logging := logging p;
        trace := trace p ++
          (invalid_setting_warning <$>
             filter (fun e => well_formed e = false) before) |}).
Proof.
  intros Hentries Hkey Hdigit Hbad Hbefore. unfold parse_settings.
  rewrite Hentries, parse_settings_list_app.
  destruct (malformed_entries_are_skipped w before ∅ p) as [m Hm].
  { intros e k v He Hwf Hs. pose proof (Hbefore e k v He Hwf Hs) as Hok.
    destruct (coerce_value w v) as [x|code|e'] eqn:Hv; [eauto | |].
    - now apply coerce_value_never_exits in Hv.
    - pose proof (proj1 (coerce_value_raises w v e') Hv) as [-> _]. congruence. }
  rewrite Hm, parse_settings_list_cons.
  rewrite (parse_setting_well_formed w m key value _ Hkey).
  now rewrite (coerce_value_isdigit w value Hdigit), Hbad.
Qed.

Lemma X2_parse_stops_at_the_first_rejected_value_witness :
  parse_settings example_world
    (Some (lit "oops,a=1,n=4" ++ [178%N] ++ lit ",later")) fresh_process =
    (Raise ValueError,
     {| logging := fresh_logging;
        trace := [invalid_setting_warning (lit "oops")] |}).
Proof.
  apply (X2_parse_stops_at_the_first_rejected_value example_world
           (lit "oops,a=1,n=4" ++ [178%N] ++ lit ",later")
           [lit "oops"; lit "a=1"] [lit "later"] (lit "n") (lit "4" ++ [178%N])
           fresh_process).
  - vm_compute. reflexivity.
  - vm_compute. intros H. apply list_elem_of_In in H. simpl in H. intuition discriminate.
  - vm_compute. reflexivity.
  - vm_compute. reflexivity.
  - intros e k v He _ Hs.
    repeat (apply elem_of_cons in He as [->|He];
            [vm_compute in Hs; try discriminate; injection Hs as <- <-;
             vm_compute; discriminate|]).
    inversion He.
Defined.

(** * Repeated keys *)

(** X17.  A repeated key is not an error: as long as no value runs into the
    [ValueError] of [int], the parse completes.  A key written by several
    entries is then bound once, to the converted value of the last entry that
    writes it; the only warnings logged are those of the entries without an
    equals sign, so a repeated key logs none. *)
Theorem X17_last_entry_of_a_key_wins {APIRouter : Type} (w : world)
    (settings : str) (before after : list str) (entry key value : str)
    (p : @process APIRouter) :
  candidate_entries (Some settings) = before ++ entry :: after ->
  well_formed entry = true ->
  split1 EQUALS entry = [key; value] ->
  (forall e k v, e ∈ after -> well_formed e = true ->
                 split1 EQUALS e = [k; v] -> strip k <> strip key) ->
  (forall e k v, e ∈ candidate_entries (Some settings) -> well_formed e = true ->
                 split1 EQUALS e = [k; v] -> coerce_value w v <> Raise ValueError) ->
  exists m x,
    parse_settings w (Some settings) p =
      (Ok m,
       {| logging := logging p;
          trace := trace p ++
            (invalid_setting_warning <$>
               filter (fun e => well_formed e = false)
                 (candidate_entries (Some settings))) |}) /\
    coerce_value w value = Ok x /\
    m !! strip key = Some x /\
    length (filter (fun kv => kv.1 = strip key) (map_to_list m)) = 1%nat.
Proof.
  intros Hentries Hwf Hsplit Hafter Hvalues. unfold parse_settings.
  destruct (malformed_entries_are_skipped w (candidate_entries (Some settings)) ∅ p)
    as [m Hparse].
  { intros e k v He Hwe Hs. pose proof (Hvalues e k v He Hwe Hs) as Hok.
    destruct (coerce_value w v) as [x|code|e'] eqn:Hv; [eauto | |].
    - now apply coerce_value_never_exits in Hv.
    - pose proof (proj1 (coerce_value_raises w v e') Hv) as [-> _]. congruence. }
  exists m. rewrite Hparse. rewrite Hentries in Hparse.
  rewrite parse_settings_list_app in Hparse.
  destruct (parse_settings_list w ∅ before p) as [[d1| |] p1]; try discriminate.
  rewrite parse_settings_list_cons in Hparse.
  destruct (parse_setting w d1 entry p1) as [[d2| |] p2] eqn:Hstep; try discriminate.
  apply parse_setting_ok_inv in Hstep
    as [(Hmal & _)|(_ & _ & k & v & x & Hs & Hx & ->)]; [congruence|].
  rewrite Hsplit in Hs. injection Hs as <- <-.
  assert (Hm : m !! strip key = Some x).
  { rewrite (parse_settings_list_other_keys w after (strip key) _ _ _ _ Hafter Hparse).
    apply lookup_insert_eq. }
  exists x. repeat split; [assumption.. |].
  now apply (map_binding_once m (strip key) x).
Qed.

Lemma X17_last_entry_of_a_key_wins_witness :
  exists m x,
    parse_settings example_world (Some (lit "a=1, a =2,oops,b=x")) fresh_process =
      (Ok m,
       {| logging := fresh_logging;
          trace := [invalid_setting_warning (lit "oops")] |}) /\
    coerce_value example_world (lit "2") = Ok x /\
    m !! lit "a" = Some x /\
    length (filter (fun kv => kv.1 = lit "a") (map_to_list m)) = 1%nat.
Proof.
  apply (X17_last_entry_of_a_key_wins example_world (lit "a=1, a =2,oops,b=x")
           [lit "a=1"] [lit "oops"; lit "b=x"] (lit " a =2") (lit " a ") (lit "2")
           fresh_process).
  - vm_compute. reflexivity.
  - vm_compute. reflexivity.
  - vm_compute. reflexivity.
  - intros e k v He Hwf Hs.
    apply elem_of_cons in He as [->|He]; [vm_compute in Hwf; discriminate|].
    apply list_elem_of_singleton in He. subst e.
    vm_compute in Hs. injection Hs as <- <-. vm_compute. discriminate.
  - intros e k v He _ Hs.
    repeat (apply elem_of_cons in He as [->|He];
            [vm_compute in Hs; try discriminate; injection Hs as <- <-;
             vm_compute; discriminate|]).
    inversion He.
Defined.

(** * The boolean test *)

Lemma boolean_letter_facts (x : N) :
  x ∈ boolean_letters ->
  Unicode.to_lower_full x = [x] /\ Unicode.to_lower_full (x - 32) = [x] /\
  Py_TOLOWER x = x /\ (97 <= x <= 122)%N.
Proof.
  intros Hx. apply list_elem_of_In in Hx. vm_compute in Hx.
  repeat (destruct Hx as [<-|Hx]; [repeat split; vm_compute; congruence|]).
  contradiction.
Qed.

Lemma Py_TOLOWER_letter (c x : N) :
  x ∈ boolean_letters -> Py_TOLOWER c = x -> c = x \/ c = (x - 32)%N.
Proof.
  intros Hx. unfold Py_TOLOWER.
  destruct ((65 <=? c) && (c <=? 90))%N; intros <-; [right; lia | now left].
Qed.

(** Only a letter and its ASCII capital are lowercased to a letter of [true]
    or [false]: no other character of Unicode is. *)
Lemma to_lower_full_boolean_letter (c x : N) (rest : list N) :
  x ∈ boolean_letters ->
  Unicode.to_lower_full c = x :: rest -> rest = [] /\ Py_TOLOWER c = x.
Proof.
  intros Hx. destruct (boolean_letter_facts x Hx) as (_ & _ & Hlow & Hrange).
  unfold Unicode.to_lower_full.
  destruct (c =? 304)%N.
  { intros [= <- _]. apply list_elem_of_In in Hx. vm_compute in Hx.
    intuition discriminate. }
  destruct (List.find (Unicode.in_run c) Unicode.lower_runs) as [r|] eqn:Hfind.
  - intros [= Hc <-]. split; [reflexivity|].
    apply find_some in Hfind as [Hr Hin].
    assert (Htable : forallb run_spares_boolean_letters Unicode.lower_runs = true)
      by (vm_compute; reflexivity).
    rewrite forallb_forall in Htable. specialize (Htable r Hr).
    unfold run_spares_boolean_letters in Htable. rewrite forallb_forall in Htable.
    apply list_elem_of_In in Hx. specialize (Htable x Hx). cbv zeta in Htable.
    assert (Hsum : Z.of_N c + snd r = Z.of_N x) by lia.
    replace (Z.of_N x - snd r) with (Z.of_N c) in Htable by lia.
    rewrite N2Z.id, Hin in Htable.
    replace (Z.of_N c <? 0) with false in Htable by (symmetry; apply Z.ltb_ge; lia).
    simpl in Htable. now apply N.eqb_eq.
  - intros [= -> <-]. auto.
Qed.

(** [lower()] yields a word over these letters exactly for the strings that
    are the word up to ASCII letter case. *)
Lemma lower_from_boolean_word (t : list N) :
  Forall (fun x => x ∈ boolean_letters) t ->
  forall before v, lower_from before v = t <-> List.map Py_TOLOWER v = t.
Proof.
  intros Ht before v. revert t Ht before.
  induction v as [|c v IH]; intros t Ht before; [reflexivity|].
  cbn [lower_from List.map]. split.
  - intros Heq. destruct t as [|x t].
    { exfalso. destruct (c =? 931)%N; [discriminate|].
      unfold Unicode.to_lower_full in Heq.
      destruct (c =? 304)%N; [discriminate|].
      destruct (List.find _ _); discriminate. }
    apply Forall_cons in Ht as [Hx Ht].
    destruct (c =? 931)%N eqn:Hsigma.
    { exfalso. cbn [app] in Heq. injection Heq as Hhead _.
      apply list_elem_of_In in Hx. unfold handle_capital_sigma in Hhead.
      destruct (match drop_while Unicode.is_case_ignorable before with
                | [] => false
                | c0 :: _ => _
                end); subst x; vm_compute in Hx; intuition discriminate. }
    destruct (Unicode.to_lower_full c) as [|y image] eqn:Himage.
    { exfalso. unfold Unicode.to_lower_full in Himage.
      destruct (c =? 304)%N; [discriminate|].
      destruct (List.find _ _); discriminate. }
    cbn [app] in Heq. injection Heq as -> Heq.
    destruct (to_lower_full_boolean_letter c x image Hx Himage) as [-> Hc].
    cbn [app] in Heq. apply (IH t Ht) in Heq. now rewrite Hc, Heq.
  - intros Heq. destruct t as [|x t]; [discriminate|].
    injection Heq as Hc Hv. apply Forall_cons in Ht as [Hx Ht].
    destruct (boolean_letter_facts x Hx) as (Hsame & Hcapital & _ & Hrange).
    assert (Himage : Unicode.to_lower_full c = [x] /\ (c =? 931)%N = false).
    { destruct (Py_TOLOWER_letter c x Hx Hc) as [-> | ->].
      - split; [assumption | apply N.eqb_neq; lia].
      - split; [assumption | apply N.eqb_neq; lia]. }
    destruct Himage as [-> ->]. cbn [app]. f_equal. now apply (IH t Ht).
Qed.

(** X3.  The boolean branch is taken exactly for the ASCII letter-case
    variants of [true] and [false]: a value is stored as the boolean [b] if
    and only if lowering its ASCII capitals gives the word for [b].  No
    non-ASCII character counts as one of these letters, and surrounding
    whitespace is not ignored. *)
Theorem X3_booleans_are_the_ascii_case_variants (w : world) (value : list N) (b : bool) :
  coerce_value w value = Ok (VBool b) <->
  List.map Py_TOLOWER value = (if b then lit "true" else lit "false").
Proof.
  assert (Htrue : Forall (fun x => x ∈ boolean_letters) (lit "true")).
  { apply Forall_forall. intros x Hx. apply list_elem_of_In.
    apply list_elem_of_In in Hx. vm_compute in Hx |- *. intuition. }
  assert (Hfalse : Forall (fun x => x ∈ boolean_letters) (lit "false")).
  { apply Forall_forall. intros x Hx. apply list_elem_of_In.
    apply list_elem_of_In in Hx. vm_compute in Hx |- *. intuition. }
  pose proof (lower_from_boolean_word _ Htrue [] value) as Ht.
  pose proof (lower_from_boolean_word _ Hfalse [] value) as Hf.
  fold (lower value) in Ht, Hf.
  assert (Hne : lit "true" <> lit "false") by (vm_compute; discriminate).
  unfold coerce_value. case_bool_decide as Hin.
  - apply elem_of_cons in Hin as [Hl|Hl].
    + rewrite bool_decide_eq_true_2 by assumption. destruct b.
      * split; [intros _; now apply Ht | reflexivity].
      * split; [discriminate|]. intros Hfv. apply Hf in Hfv. congruence.
    + apply list_elem_of_singleton in Hl.
      rewrite bool_decide_eq_false_2 by congruence. destruct b.
      * split; [discriminate|]. intros Htv. apply Ht in Htv. congruence.
      * split; [intros _; now apply Hf | reflexivity].
  - split.
    + destruct (isdigit value); [destruct (py_int _ value) | destruct (py_float value)];
        discriminate.
    + intros Hv. exfalso. apply Hin. destruct b.
      * apply elem_of_cons. left. now apply Ht.
      * apply elem_of_cons. right. apply list_elem_of_singleton. now apply Hf.
Qed.

(** * The integer branch *)

Lemma digits_value_snoc (ds : list N) (d : N) :
  digits_value (ds ++ [d]) = 10 * digits_value ds + (Z.of_N d - 48).
Proof. unfold digits_value. now rewrite fold_left_app. Qed.

Lemma ascii_digit_of_bounds (c : N) : (48 <= ascii_digit_of c)%N.
Proof. unfold ascii_digit_of. destruct (Unicode.to_decimal c); lia. Qed.

Lemma decimal_value_snoc (v : list N) (c : N) :
  decimal_value (v ++ [c]) = 10 * decimal_value v + (Z.of_N (ascii_digit_of c) - 48).
Proof.
  unfold decimal_value. rewrite List.map_app. cbn [List.map].
  now rewrite digits_value_snoc.
Qed.

Lemma decimal_value_nonneg (v : list N) : 0 <= decimal_value v.
Proof.
  induction v as [|c v IH] using rev_ind; [reflexivity|].
  rewrite decimal_value_snoc. pose proof (ascii_digit_of_bounds c). lia.
Qed.

(** X4.  A value is stored as an integer exactly when it passes [isdigit()],
    every character is a decimal digit (of any script, not only ASCII) and
    the number of digits is within the interpreter's limit; the integer is
    then the decimal reading of the digits, leading zeros allowed, and it is
    never negative. *)
Theorem X4_integers_are_the_decimal_digit_strings (w : world) (value : list N) (n : Z) :
  (coerce_value w value = Ok (VInt n) <->
   isdigit value = true /\ forallb is_decimal value = true /\
   over_limit (int_max_str_digits w) (length value) = false /\
   n = decimal_value value) /\
  0 <= decimal_value value /\
  decimal_value [] = 0 /\
  (forall c d, Unicode.to_decimal c = Some d ->
     decimal_value (value ++ [c]) = 10 * decimal_value value + Z.of_N d).
Proof.
  split; [|split; [apply decimal_value_nonneg | split; [reflexivity|]]].
  - destruct (isdigit value) eqn:Hdigit.
    + rewrite (coerce_value_isdigit w value Hdigit).
      destruct (forallb is_decimal value);
        destruct (over_limit (int_max_str_digits w) (length value)); cbn [andb negb].
      * split; [discriminate | intros (_ & _ & ? & _); discriminate].
      * split; [intros [= <-]; auto | intros (_ & _ & _ & ->); reflexivity].
      * split; [discriminate | intros (_ & ? & _); discriminate].
      * split; [discriminate | intros (_ & ? & _); discriminate].
    + split; [|intros (? & _); discriminate].
      unfold coerce_value. case_bool_decide; [discriminate|].
      rewrite Hdigit. destruct (py_float value); discriminate.
  - intros c d Hd. rewrite decimal_value_snoc. unfold ascii_digit_of.
    rewrite Hd. lia.
Qed.

(** * Keys *)

Lemma drop_while_app_all {A} (f : A -> bool) (l1 l2 : list A) :
  Forall (fun x => f x = true) l1 -> drop_while f (l1 ++ l2) = drop_while f l2.
Proof.
  induction 1 as [|x l1 Hx _ IH]; [reflexivity|]. cbn [app drop_while].
  now rewrite Hx.
Qed.

Lemma drop_while_app_stop {A} (f : A -> bool) (l1 l2 : list A) :
  drop_while f l1 <> [] -> drop_while f (l1 ++ l2) = drop_while f l1 ++ l2.
Proof.
  induction l1 as [|x l1 IH]; [intros H; now destruct H|]. cbn [app drop_while].
  destruct (f x); [exact IH | reflexivity].
Qed.

Lemma drop_while_all {A} (f : A -> bool) (l : list A) :
  drop_while f l = [] -> Forall (fun x => f x = true) l.
Proof.
  induction l as [|x l IH]; [constructor|]. cbn [drop_while].
  destruct (f x) eqn:Hx; [|discriminate]. intros H. constructor; auto.
Qed.

Lemma drop_while_whole {A} (f : A -> bool) (l : list A) :
  Forall (fun x => f x = true) l -> drop_while f l = [].
Proof.
  intros H. rewrite <- (app_nil_r l). now rewrite drop_while_app_all.
Qed.

Lemma take_drop_while {A} (f : A -> bool) (l : list A) :
  l = take_while f l ++ drop_while f l.
Proof.
  induction l as [|x l IH]; [reflexivity|]. cbn [take_while drop_while].
  destruct (f x); [cbn [app]; now rewrite <- IH | reflexivity].
Qed.

Lemma drop_while_head {A} (f : A -> bool) (l : list A) (x : A) (r : list A) :
  drop_while f l = x :: r -> f x = false.
Proof.
  induction l as [|y l IH]; [discriminate|]. cbn [drop_while].
  destruct (f y) eqn:Hy; [exact IH | now intros [= <- _]].
Qed.

Lemma Forall_rev_space (l : list N) :
  Forall (fun c => Unicode.isspace c = true) l ->
  Forall (fun c => Unicode.isspace c = true) (rev l).
Proof.
  rewrite !Forall_forall. intros H x Hx. apply H.
  apply list_elem_of_In. apply list_elem_of_In in Hx. now apply in_rev.
Qed.

(** Whitespace around a string does not change what [strip()] returns. *)
Lemma strip_padded (ws1 ws2 k : list N) :
  Forall (fun c => Unicode.isspace c = true) ws1 ->
  Forall (fun c => Unicode.isspace c = true) ws2 ->
  strip (ws1 ++ k ++ ws2) = strip k.
Proof.
  intros H1 H2. unfold strip, lstrip, rstrip.
  rewrite (drop_while_app_all _ ws1 _ H1).
  destruct (drop_while Unicode.isspace k) as [|c k'] eqn:Hk.
  - apply drop_while_all in Hk.
    rewrite (drop_while_app_all _ k ws2 Hk).
    now rewrite (drop_while_whole _ ws2 H2).
  - rewrite drop_while_app_stop by congruence. rewrite Hk.
    rewrite rev_app_distr. rewrite drop_while_app_all; [reflexivity|].
    now apply Forall_rev_space.
Qed.

(** What [strip()] returns is the string between the leading and the
    trailing whitespace: it is empty, or it starts and ends with a character
    that is no whitespace. *)
Lemma strip_core (k : list N) :
  exists ws1 ws2,
    k = ws1 ++ strip k ++ ws2 /\
    Forall (fun c => Unicode.isspace c = true) ws1 /\
    Forall (fun c => Unicode.isspace c = true) ws2 /\
    drop_while Unicode.isspace (strip k) = strip k /\
    drop_while Unicode.isspace (rev (strip k)) = rev (strip k).
Proof.
  unfold strip, lstrip, rstrip.
  set (a := drop_while Unicode.isspace k).
  set (b := drop_while Unicode.isspace (rev a)).
  exists (take_while Unicode.isspace k), (rev (take_while Unicode.isspace (rev a))).
  assert (Ha : a = rev b ++ rev (take_while Unicode.isspace (rev a))).
  { rewrite <- rev_app_distr. unfold b. rewrite <- take_drop_while.
    now rewrite rev_involutive. }
  split; [|split; [|split; [|split]]].
  - rewrite <- Ha. apply take_drop_while.
  - apply take_while_holds.
  - apply Forall_rev_space, take_while_holds.
  - destruct (rev b) as [|x r] eqn:Hb; [reflexivity|].
    assert (Hx : Unicode.isspace x = false).
    { apply (drop_while_head Unicode.isspace k x
               (r ++ rev (take_while Unicode.isspace (rev a)))).
      exact Ha. }
    cbn [drop_while]. now rewrite Hx.
  - rewrite rev_involutive. destruct b as [|y b'] eqn:Hb; [reflexivity|].
    assert (Hy : Unicode.isspace y = false).
    { now apply (drop_while_head Unicode.isspace (rev a) y b'). }
    cbn [drop_while]. now rewrite Hy.
Qed.

Lemma strip_idempotent (k : list N) : strip (strip k) = strip k.
Proof.
  destruct (strip_core k) as (_ & _ & _ & _ & _ & Hl & Hr).
  unfold strip at 1. unfold lstrip, rstrip. rewrite Hl, Hr.
  apply rev_involutive.
Qed.

Lemma equals_is_no_space (ws : list N) :
  Forall (fun c => Unicode.isspace c = true) ws -> ~ EQUALS ∈ ws.
Proof.
  intros H Hin. rewrite Forall_forall in H. apply H in Hin. vm_compute in Hin.
  discriminate.
Qed.

(** X5.  Whitespace around a key never matters: an entry whose key is padded
    with whitespace of any kind is processed exactly as the entry with the
    bare key, so both write the same key of the mapping.  In particular an
    entry with an empty or blank key is accepted and stored under the empty
    string. *)
Theorem X5_whitespace_around_a_key_is_ignored {APIRouter : Type} (w : world)
    (d : gmap (list N) pyvalue) (ws1 ws2 key value : list N)
    (p : @process APIRouter) :
  Forall (fun c => Unicode.isspace c = true) ws1 ->
  Forall (fun c => Unicode.isspace c = true) ws2 ->
  ~ EQUALS ∈ key ->
  parse_setting w d ((ws1 ++ key ++ ws2) ++ EQUALS :: value) p =
    parse_setting w d (key ++ EQUALS :: value) p /\
  parse_setting w d (ws1 ++ EQUALS :: value) p =
    match coerce_value w value with
    | Ok x => (Ok (<[ [] := x ]> d), p)
    | Exit code => (Exit code, p)
    | Raise e => (Raise e, p)
    end.
Proof.
  intros H1 H2 Hkey.
  assert (Hpadded : ~ EQUALS ∈ ws1 ++ key ++ ws2).
  { rewrite !elem_of_app. intros [H|[H|H]]; [|contradiction|].
    - now apply (equals_is_no_space ws1).
    - now apply (equals_is_no_space ws2). }
  split.
  - rewrite (parse_setting_well_formed w d _ value p Hpadded).
    rewrite (parse_setting_well_formed w d key value p Hkey).
    now rewrite strip_padded.
  - rewrite (parse_setting_well_formed w d ws1 value p (equals_is_no_space ws1 H1)).
    replace (strip ws1) with (@nil N); [reflexivity|].
    rewrite <- (app_nil_r ws1). change (ws1 ++ []) with (ws1 ++ [] ++ []).
    now rewrite (strip_padded ws1 [] [] H1 (List.Forall_nil _)).
Qed.

Lemma X5_whitespace_around_a_key_is_ignored_witness :
  parse_setting example_world ∅ (lit "  LOG_LEVEL " ++ [160%N] ++ lit "=INFO")
    fresh_process =
    parse_setting example_world ∅ (lit "LOG_LEVEL=INFO") fresh_process /\
  parse_setting example_world ∅ (lit "  =5") fresh_process =
    (Ok (<[ [] := VInt 5 ]> ∅), fresh_process).
Proof.
  destruct (X5_whitespace_around_a_key_is_ignored example_world ∅ (lit "  ")
              (lit " " ++ [160%N]) (lit "LOG_LEVEL") (lit "INFO") fresh_process)
    as [Hsame _].
  { repeat constructor. }
  { repeat constructor. }
  { vm_compute. intros H. apply list_elem_of_In in H. simpl in H. intuition discriminate. }
  destruct (X5_whitespace_around_a_key_is_ignored example_world ∅ (lit "  ")
              [] [] (lit "5") fresh_process) as [_ Hblank].
  { repeat constructor. }
  { constructor. }
  { apply not_elem_of_nil. }
  split; [exact Hsame | exact Hblank].
Defined.

(** X6.  Every key of the mapping a completed parse returns is free of
    surrounding whitespace: it is its own [strip()], so it is empty or starts
    and ends with a character that is no whitespace. *)
Theorem X6_parsed_keys_carry_no_surrounding_whitespace {APIRouter : Type} (w : world)
    (settings : option (list N)) (m : gmap (list N) pyvalue) (key : list N)
    (x : pyvalue) (p p' : @process APIRouter) :
  parse_settings w settings p = (Ok m, p') ->
  m !! key = Some x ->
  strip key = key /\
  drop_while Unicode.isspace key = key /\
  drop_while Unicode.isspace (rev key) = rev key.
Proof.
  intros Hparse Hkey. unfold parse_settings in Hparse.
  assert (Hsome : is_Some (m !! key)) by eauto.
  apply (parse_settings_list_keys w _ key _ _ _ _ Hparse) in Hsome
    as [[y Hy]|(e & k & v & _ & _ & _ & <-)].
  { rewrite lookup_empty in Hy. discriminate. }
  destruct (strip_core k) as (_ & _ & _ & _ & _ & Hl & Hr).
  split; [apply strip_idempotent | auto].
Qed.

Lemma X6_parsed_keys_carry_no_surrounding_whitespace_witness :
  strip (lit "b c") = lit "b c" /\
  drop_while Unicode.isspace (lit "b c") = lit "b c" /\
  drop_while Unicode.isspace (rev (lit "b c")) = rev (lit "b c").
Proof.
  apply (X6_parsed_keys_carry_no_surrounding_whitespace example_world
           (Some (lit "a=1, b c =x")) (<[ lit "a" := VInt 1 ]> (<[ lit "b c" := VStr (lit "x") ]> ∅))
           (lit "b c") (VStr (lit "x")) fresh_process fresh_process).
  - vm_compute. reflexivity.
  - vm_compute. reflexivity.
Defined.

(** * Outcomes of [run] *)

(** X7.  How [run] ends, the route factory returning its routes as its
    interface says.  It returns only when the settings have been parsed, the
    project path is an existing directory and the server call has returned;
    that call is then the last thing it did.  It leaves through [typer.Exit]
    only with code 1, only because the path is no directory, and the error
    line is then the last thing logged.  An exception that escapes it is
    either the [ValueError] of the settings loop, which runs before the path
    is looked at, so that a missing project directory goes unreported; or the
    exception of [os.getcwd()], when no project is given and the working
    directory cannot be had; or the exception of the server call, after a
    validation that has passed.  In the first two cases [run] stops where the
    loop stopped. *)
Theorem X7_how_run_ends {APIRouter : Type}
    (create_router : option (list N) -> option float ->
                     option (gmap (list N) pyvalue) -> bool -> bool -> APIRouter)
    (uvicorn : @FastAPI APIRouter -> list N -> Z -> list N -> logging_state ->
               outcome unit * logging_state)
    (w : world) (o : options) (p : @process APIRouter) :
  let parsed := parse_settings w (opt_settings o) (configured (opt_debug o) p) in
  let ended := run create_router uvicorn w o p in
  match ended.1 with
  | Ok _ =>
      exists d path,
        parsed.1 = Ok d /\ project_path w (opt_project o) = Returns path /\
        isdir w path = true /\
        (server_call create_router uvicorn o path d (logging parsed.2)).1 =
          Returns tt /\
        last (trace ended.2) =
          Some (ServerRun (served_app create_router o path d) (opt_host o)
                  (opt_port o) (server_log_level o))
  | Exit code =>
      code = 1 /\
      exists d path,
        parsed.1 = Ok d /\ project_path w (opt_project o) = Returns path /\
        isdir w path = false /\
        last (trace ended.2) = Some (missing_project_error path)
  | Raise e =>
      (e = ValueError /\ parsed.1 = Raise ValueError /\ ended.2 = parsed.2) \/
      (exists d,
         parsed.1 = Ok d /\ project_path w (opt_project o) = Raises e /\
         ended.2 = parsed.2) \/
      (exists d path,
         parsed.1 = Ok d /\ project_path w (opt_project o) = Returns path /\
         isdir w path = true /\
         (server_call create_router uvicorn o path d (logging parsed.2)).1 =
           Raises e /\
         last (trace ended.2) =
           Some (ServerRun (served_app create_router o path d) (opt_host o)
                   (opt_port o) (server_log_level o)))
  end.
Proof.
  intros parsed ended. unfold ended.
  destruct parsed as [[d| |] p1] eqn:Hparse; unfold parsed in Hparse.
  - rewrite (run_after_settings create_router uvicorn w o p d p1 Hparse).
    destruct (project_path w (opt_project o)) as [path|e] eqn:Hpath.
    + destruct (isdir w path) eqn:Hdir; cbn [fst snd trace].
      * assert (Hlast : last (trace p1 ++ startup_logs o path d ++
                               startup_calls create_router o path d) =
                        Some (ServerRun (served_app create_router o path d)
                                (opt_host o) (opt_port o) (server_log_level o))).
        { unfold startup_calls. rewrite !last_app. reflexivity. }
        destruct (server_call create_router uvicorn o path d (logging p1)).1
          as [[]|e] eqn:Hserved; cbn [result_of].
        -- exists d, path. auto.
        -- right. right. exists d, path. auto.
      * split; [reflexivity|]. exists d, path.
        split; [reflexivity|]. split; [reflexivity|]. split; [exact Hdir|].
        apply last_snoc.
    + cbn [fst snd]. right. left. exists d. auto.
  - exfalso. unfold parse_settings in Hparse.
    now apply parse_settings_list_never_exits in Hparse.
  - rewrite (run_after_failed_settings create_router uvicorn w o p p1 e Hparse).
    cbn [fst snd]. left. unfold parse_settings in Hparse.
    apply parse_settings_list_raises in Hparse as ->. auto.
Qed.

(** X8.  What a successful startup did, in order: after the settings
    warnings come the five fixed startup lines, then the settings line if the
    mapping is not empty, then the timeout line if a timeout was given and
    is not zero; then the route factory is called once, with the resolved
    path and the mapping (neither is ever [None]); last, the server is run on
    the application just assembled, which holds the permissive cross-origin
    policy and the factory's router.  A zero timeout is forwarded to the
    factory like any other, only its log line is skipped.  The run ends as
    the server call ends, with the logging configuration the server leaves. *)
Theorem X8_successful_startup {APIRouter : Type}
    (create_router : option (list N) -> option float ->
                     option (gmap (list N) pyvalue) -> bool -> bool -> APIRouter)
    (uvicorn : @FastAPI APIRouter -> list N -> Z -> list N -> logging_state ->
               outcome unit * logging_state)
    (w : world) (o : options) (d : gmap (list N) pyvalue) (path : list N)
    (p p1 : @process APIRouter) :
  parse_settings w (opt_settings o) (configured (opt_debug o) p) = (Ok d, p1) ->
  project_path w (opt_project o) = Returns path ->
  isdir w path = true ->
  exists app,
    run create_router uvicorn w o p =
      (result_of
         (uvicorn app (opt_host o) (opt_port o)
            (if opt_debug o then lit "debug" else lit "info") (logging p1)).1,
       {| logging :=
            (uvicorn app (opt_host o) (opt_port o)
               (if opt_debug o then lit "debug" else lit "info") (logging p1)).2;
          trace := trace p1 ++ startup_logs o path d ++
            [RouterCreated (Some path) (opt_timeout o) (Some d) (opt_debug o)
               (opt_include_logs o);
             ServerRun app (opt_host o) (opt_port o)
               (if opt_debug o then lit "debug" else lit "info")] |}) /\
    user_middleware app = [permissive_cors] /\
    included_routers app =
      [create_router (Some path) (opt_timeout o) (Some d) (opt_debug o)
         (opt_include_logs o)] /\
    length (startup_logs (APIRouter := APIRouter) o path d) =
      (5 + (if dict_truthy d then 1 else 0) +
       match opt_timeout o with
       | Some t => if float_truthy t then 1 else 0
       | None => 0
       end)%nat /\
    Forall (fun ev => is_logged ev = true) (startup_logs (APIRouter := APIRouter) o path d).
Proof.
  intros Hparse Hpath Hdir.
  pose proof (run_after_settings create_router uvicorn w o p d p1 Hparse) as Hrun.
  rewrite Hpath, Hdir in Hrun.
  exists (served_app create_router o path d).
  split; [exact Hrun|]. split; [reflexivity|]. split; [reflexivity|].
  split; [|apply startup_logs_logged].
  unfold startup_logs. rewrite !length_app.
  destruct (dict_truthy d); destruct (opt_timeout o) as [t|];
    try destruct (float_truthy t); reflexivity.
Qed.

Lemma X8_successful_startup_witness :
  exists app,
    run unit_router quiet_uvicorn example_world example_options fresh_process =
      (result_of
         (quiet_uvicorn app (lit "127.0.0.1") 8000 (lit "debug")
            (setup_logging true fresh_logging)).1,
       {| logging :=
            (quiet_uvicorn app (lit "127.0.0.1") 8000 (lit "debug")
               (setup_logging true fresh_logging)).2;
          trace := [] ++
            startup_logs example_options (lit "/srv/project")
              (<[ lit "DEPTH" := VInt 2 ]> ∅) ++
            [RouterCreated (Some (lit "/srv/project")) (Some (S754_zero false))
               (Some (<[ lit "DEPTH" := VInt 2 ]> ∅)) true false;
             ServerRun app (lit "127.0.0.1") 8000 (lit "debug")] |}) /\
    user_middleware app = [permissive_cors] /\
    included_routers app = [tt] /\
    length (startup_logs (APIRouter := unit) example_options (lit "/srv/project")
              (<[ lit "DEPTH" := VInt 2 ]> ∅)) = 6%nat /\
    Forall (fun ev => is_logged ev = true)
      (startup_logs (APIRouter := unit) example_options (lit "/srv/project")
         (<[ lit "DEPTH" := VInt 2 ]> ∅)).
Proof.
  exact (X8_successful_startup unit_router quiet_uvicorn example_world
           example_options (<[ lit "DEPTH" := VInt 2 ]> ∅) (lit "/srv/project")
           fresh_process (configured true fresh_process) eq_refl eq_refl eq_refl).
Defined.

(** * Logging *)



(** * Padded numbers *)

Lemma Py_ISSPACE_facts (c : N) :
  Py_ISSPACE c = true ->
  Unicode.isspace c = true /\ (c <? 128)%N = true /\ c <> 95%N /\
  Py_ISDIGIT c = false.
Proof.
  intros Hc.
  pose (P := fun c : N =>
    Unicode.isspace c && (c <? 128)%N && negb (c =? 95)%N && negb (Py_ISDIGIT c)).
  assert (HP : P c = true).
  { apply (forall_in_ranges P [(9, 13); (32, 32)]%N); [vm_compute; reflexivity|].
    unfold Unicode.in_ranges. cbn [existsb fst snd]. unfold Py_ISSPACE in Hc.
    apply orb_true_iff in Hc as [Hc|Hc].
    - now rewrite Hc.
    - apply N.eqb_eq in Hc. subst c. reflexivity. }
  unfold P in HP.
  apply andb_true_iff in HP as [HP Hdigit].
  apply andb_true_iff in HP as [HP Hunder].
  apply andb_true_iff in HP as [Hspace Hascii].
  repeat split; try assumption.
  - now apply negb_true_iff, N.eqb_neq in Hunder.
  - now apply negb_true_iff.
Qed.

Lemma take_while_elem {A} (f : A -> bool) (l : list A) (x : A) :
  x ∈ take_while f l -> x ∈ l.
Proof.
  induction l as [|y l IH]; [auto|]. cbn [take_while].
  destruct (f y); [|intros H; inversion H].
  rewrite !elem_of_cons. intros [->|H]; auto.
Qed.

Lemma parse_sign_other (c : N) (r : list N) :
  c <> 45%N -> c <> 43%N -> parse_sign (c :: r) = (false, c :: r).
Proof.
  intros H45 H43. unfold parse_sign. destruct c as [|q]; [reflexivity|].
  do 6 (destruct q as [q|q|]; try reflexivity); congruence.
Qed.

Lemma digits_value_nonneg (ds : list N) :
  Forall (fun c => Py_ISDIGIT c = true) ds -> 0 <= digits_value ds.
Proof.
  induction ds as [|c ds IH] using rev_ind; [reflexivity|]. intros H.
  apply Forall_app in H as [Hds Hc]. apply Forall_cons in Hc as [Hc _].
  rewrite digits_value_snoc. specialize (IH Hds).
  unfold Py_ISDIGIT in Hc. apply andb_true_iff in Hc as [Hlo _].
  apply N.leb_le in Hlo. lia.
Qed.

(** The float of a non-negative integer with exponent zero is that integer
    rounded to binary64. *)
Lemma float_of_decimal_integer (m : Z) :
  0 <= m -> float_of_decimal false m 0 = dyadic m 0.
Proof.
  intros Hm. unfold float_of_decimal, dyadic, binary_normalize.
  destruct m as [|q|q]; [reflexivity | | lia].
  cbn [Z.leb Z.compare]. now rewrite Pos.mul_1_r.
Qed.

(** [float] on a run of ASCII digits inside ASCII white space. *)
Lemma py_float_padded_digits (ws1 ws2 digits : list N) :
  Forall (fun c => Py_ISSPACE c = true) ws1 ->
  Forall (fun c => Py_ISSPACE c = true) ws2 ->
  digits <> [] ->
  Forall (fun c => Py_ISDIGIT c = true) digits ->
  Z.of_nat (length digits) <= MAX_DIGITS ->
  py_float (ws1 ++ digits ++ ws2) = Some (dyadic (digits_value digits) 0).
Proof.
  intros H1 H2 Hne Hds Hlen. unfold py_float.
  assert (Hfacts : forall c, c ∈ ws1 ++ digits ++ ws2 ->
            (c <? 128)%N = true /\ c <> 95%N).
  { intros c. rewrite !elem_of_app. rewrite Forall_forall in H1, H2, Hds.
    intros [Hc|[Hc|Hc]].
    - destruct (Py_ISSPACE_facts c (H1 c Hc)) as (_ & ? & ? & _). auto.
    - destruct (ascii_digit_facts c (Hds c Hc)) as (Hd & _ & ? & Hsame).
      destruct (digit_facts c Hd) as (_ & _ & _ & _ & _ & _ & H95 & _).
      rewrite Hsame in H95. auto.
    - destruct (Py_ISSPACE_facts c (H2 c Hc)) as (_ & ? & ? & _). auto. }
  assert (Hascii : forallb (fun c => (c <? 128)%N) (ws1 ++ digits ++ ws2) = true).
  { apply forallb_forall. intros c Hc. now apply Hfacts, list_elem_of_In. }
  unfold TransformDecimalAndSpaceToASCII. rewrite Hascii.
  assert (Hunder : str_in [95%N]
            (take_while (fun c => negb (c =? 0)%N) (ws1 ++ digits ++ ws2)) = false).
  { apply str_in_char_false. intros Hin. apply take_while_elem in Hin.
    now apply Hfacts in Hin as [_ Hin]. }
  rewrite Hunder.
  assert (Hnospace : Forall (fun c => Py_ISSPACE c = false) digits).
  { eapply Forall_impl; [exact Hds|]. intros c Hc. cbv beta.
    destruct (ascii_digit_facts c Hc) as (Hd & _ & _ & Hsame).
    destruct (digit_facts c Hd) as (_ & _ & _ & _ & _ & _ & _ & _ & _ & Hsp & _).
    now rewrite Hsame in Hsp. }
  rewrite (drop_while_app_all _ ws1 _ H1).
  destruct digits as [|c ds] eqn:Hdigits; [congruence|]. rewrite <- Hdigits in *.
  assert (Hdrop : drop_while Py_ISSPACE (digits ++ ws2) = digits ++ ws2).
  { rewrite Hdigits. rewrite Hdigits in Hnospace.
    apply Forall_cons in Hnospace as [Hc _]. cbn [app drop_while]. now rewrite Hc. }
  rewrite Hdrop.
  destruct (digits ++ ws2) as [|x r] eqn:Hshape;
    [rewrite Hdigits in Hshape; discriminate|].
  rewrite <- Hshape. rewrite rev_app_distr.
  rewrite (drop_while_app_all Py_ISSPACE (rev ws2) (rev digits)).
  2:{ rewrite Forall_forall in H2 |- *. intros y Hy. apply H2.
      apply list_elem_of_In. apply list_elem_of_In in Hy. now apply in_rev. }
  rewrite (drop_while_none Py_ISSPACE (rev digits)).
  2:{ rewrite Forall_forall in Hnospace |- *. intros y Hy. apply Hnospace.
      apply list_elem_of_In. apply list_elem_of_In in Hy. now apply in_rev. }
  rewrite rev_involutive.
  unfold PyOS_string_to_double, Py_dg_strtod.
  assert (Hsign : parse_sign digits = (false, digits)).
  { rewrite Hdigits. rewrite Hdigits in Hds. apply Forall_cons in Hds as [Hc _].
    destruct (ascii_digit_facts c Hc) as (Hd & _ & _ & Hsame).
    destruct (digit_facts c Hd) as (_ & _ & _ & _ & _ & _ & _ & H43 & H45 & _).
    rewrite Hsame in *. now apply parse_sign_other. }
  rewrite Hsign.
  assert (Hall : forallb Py_ISDIGIT digits = true).
  { apply forallb_forall. intros y Hy. rewrite Forall_forall in Hds.
    now apply Hds, list_elem_of_In. }
  rewrite (take_while_all _ _ Hall), (drop_while_whole _ _ Hds).
  rewrite app_nil_r.
  assert (Hcount : (MAX_DIGITS <? Z.of_nat (length (drop_while is_zero_digit digits)))
                   || (MAX_DIGITS <? Z.of_nat (@length N [])) = false).
  { apply orb_false_iff. split; apply Z.ltb_ge.
    - assert (length (drop_while is_zero_digit digits) <= length digits)%nat.
      { clear. induction digits as [|y l IH]; [reflexivity|]. cbn [drop_while].
        destruct (is_zero_digit y); [cbn [length]; lia | reflexivity]. }
      lia.
    - unfold MAX_DIGITS. cbn [length]. lia. }
  rewrite Hcount. rewrite Hdigits at 1. cbn [parse_exponent length].
  rewrite Z.sub_0_r. now rewrite (float_of_decimal_integer _ (digits_value_nonneg _ Hds)).
Qed.

(** X10.  White space around a number changes its type: a run of ASCII
    digits padded with blanks, tabs or line breaks is stored as a float (the
    binary64 value nearest to the integer it reads as), where the same
    digits without padding, up to 640 of them, are stored as that integer. *)
Theorem X10_padded_integer_becomes_a_float (w : world) (ws1 ws2 digits : list N) :
  Forall (fun c => Py_ISSPACE c = true) ws1 ->
  Forall (fun c => Py_ISSPACE c = true) ws2 ->
  ws1 ++ ws2 <> [] ->
  digits <> [] ->
  Forall (fun c => Py_ISDIGIT c = true) digits ->
  (length digits <= 640)%nat ->
  coerce_value w (ws1 ++ digits ++ ws2) = Ok (VFloat (dyadic (digits_value digits) 0)) /\
  coerce_value w digits = Ok (VInt (digits_value digits)).
Proof.
  intros H1 H2 Hpad Hne Hds Hlen. split; [|now apply coerce_value_ascii_digits].
  assert (Hs1 : Forall (fun c => Unicode.isspace c = true) ws1).
  { eapply Forall_impl; [exact H1|]. intros c Hc. now apply Py_ISSPACE_facts in Hc. }
  assert (Hs2 : Forall (fun c => Unicode.isspace c = true) ws2).
  { eapply Forall_impl; [exact H2|]. intros c Hc. now apply Py_ISSPACE_facts in Hc. }
  rewrite coerce_value_padded.
  - rewrite py_float_padded_digits; auto. unfold MAX_DIGITS. lia.
  - rewrite (strip_padded ws1 ws2 digits Hs1 Hs2). rewrite strip_without_space.
    + intros Heq. apply (f_equal (@length N)) in Heq. rewrite !length_app in Heq.
      destruct ws1, ws2; cbn [length] in Heq; try lia. now apply Hpad.
    + eapply Forall_impl; [exact Hds|]. intros c Hc. cbv beta.
      destruct (ascii_digit_facts c Hc) as (Hd & _).
      now destruct (digit_facts c Hd) as (Hsp & _).
Qed.

Lemma X10_padded_integer_becomes_a_float_witness :
  coerce_value example_world (lit " 120" ++ [9%N]) = Ok (VFloat (dyadic 120 0)) /\
  coerce_value example_world (lit "120") = Ok (VInt 120).
Proof.
  apply (X10_padded_integer_becomes_a_float example_world (lit " ") [9%N] (lit "120")).
  - repeat constructor.
  - repeat constructor.
  - discriminate.
  - discriminate.
  - repeat constructor.
  - vm_compute. lia.
Defined.

(** * The mapping as a whole *)

(** An entry whose value converts completes from any mapping and any process
    state, with the update of that entry, and leaves the logging
    configuration alone. *)
Lemma parse_setting_update {APIRouter : Type} (w : world) (e : list N)
    (d : gmap (list N) pyvalue) (p : @process APIRouter) :
  value_converts w e ->
  exists p', parse_setting w d e p = (Ok (entry_update w e d), p') /\
             logging p' = logging p.
Proof.
  intros Hconv. unfold entry_update.
  destruct (well_formed e) eqn:Hwf.
  - destruct (well_formed_unpack e Hwf) as (k & v & He & Hk & Hs).
    destruct (Hconv k v Hs Hwf) as [x Hx].
    rewrite Hs, Hx, He, (parse_setting_well_formed w d k v p Hk), Hx. eauto.
  - rewrite (parse_setting_malformed w d e p Hwf). eauto.
Qed.

Lemma parse_setting_converts {APIRouter : Type} (w : world) (e : list N)
    (d d1 : gmap (list N) pyvalue) (p p1 : @process APIRouter) :
  parse_setting w d e p = (Ok d1, p1) -> value_converts w e.
Proof.
  intros Hstep k v Hs Hwf.
  apply parse_setting_ok_inv in Hstep
    as [(Hwf' & _)|(_ & _ & k' & v' & x & Hs' & Hx & _)]; [congruence|].
  rewrite Hs in Hs'. injection Hs' as <- <-. eauto.
Qed.

Lemma parse_settings_list_converts {APIRouter : Type} (w : world)
    (entries : list (list N)) (d m : gmap (list N) pyvalue)
    (p p1 : @process APIRouter) :
  parse_settings_list w d entries p = (Ok m, p1) ->
  Forall (value_converts w) entries.
Proof.
  revert d p. induction entries as [|e entries IH]; intros d p.
  - intros _. constructor.
  - rewrite parse_settings_list_cons.
    destruct (parse_setting w d e p) as [[d1| |] pa] eqn:Hstep; try discriminate.
    intros Hrest. constructor.
    + exact (parse_setting_converts w e d d1 p pa Hstep).
    + exact (IH d1 pa Hrest).
Qed.

Lemma parse_settings_list_update {APIRouter : Type} (w : world)
    (entries : list (list N)) (d : gmap (list N) pyvalue)
    (p : @process APIRouter) :
  Forall (value_converts w) entries ->
  exists p',
    parse_settings_list w d entries p =
      (Ok (foldl (fun acc e => entry_update w e acc) d entries), p') /\
    logging p' = logging p.
Proof.
  intros Hall. revert d p.
  induction Hall as [|e entries He _ IH]; intros d p.
  - exists p. split; reflexivity.
  - destruct (parse_setting_update w e d p He) as (pa & Hstep & Hlog).
    destruct (IH (entry_update w e d) pa) as (p' & Hrest & Hlog').
    exists p'. rewrite parse_settings_list_cons, Hstep. cbn [foldl].
    split; [exact Hrest | congruence].
Qed.

Lemma distinct_keys_perm (l l' : list (list N)) :
  l ≡ₚ l' -> distinct_keys l -> distinct_keys l'.
Proof.
  intros Hperm Hd e1 e2 k1 v1 k2 v2 H1 H2. apply (Hd e1 e2 k1 v1 k2 v2).
  - now rewrite Hperm.
  - now rewrite Hperm.
Qed.

Lemma entry_update_swap (w : world) (x y : list N) (l : list (list N))
    (d : gmap (list N) pyvalue) :
  distinct_keys (y :: x :: l) ->
  entry_update w x (entry_update w y d) = entry_update w y (entry_update w x d).
Proof.
  intros Hd. unfold entry_update.
  destruct (well_formed x) eqn:Hx; [|reflexivity].
  destruct (well_formed y) eqn:Hy; [|reflexivity].
  destruct (split1 EQUALS x) as [|kx [|vx [|? ?]]] eqn:Hsx; try reflexivity.
  destruct (split1 EQUALS y) as [|ky [|vy [|? ?]]] eqn:Hsy; try reflexivity.
  destruct (decide (strip kx = strip ky)) as [Hk|Hk].
  - assert (x = y) as ->.
    { apply (Hd x y kx vx ky vy); auto; set_solver. }
    rewrite Hsx in Hsy. now injection Hsy as <- <-.
  - destruct (coerce_value w vx); destruct (coerce_value w vy); try reflexivity.
    now apply insert_insert_ne.
Qed.

Lemma foldl_entry_update_perm (w : world) (l l' : list (list N)) :
  l ≡ₚ l' -> distinct_keys l ->
  forall d, foldl (fun acc e => entry_update w e acc) d l =
            foldl (fun acc e => entry_update w e acc) d l'.
Proof.
  induction 1 as [|x l l' Hperm IH|x y l|l l' l'' H1 IH1 H2 IH2]; intros Hd d.
  - reflexivity.
  - cbn [foldl]. apply IH. intros e1 e2 k1 v1 k2 v2 He1 He2.
    apply (Hd e1 e2 k1 v1 k2 v2); set_solver.
  - cbn [foldl]. now rewrite (entry_update_swap w x y l d Hd).
  - rewrite (IH1 Hd). apply IH2. now apply (distinct_keys_perm l l').
Qed.

(** X11.  The order of the entries is irrelevant as long as no two entries
    write the same key: if the entries of one settings string are those of
    another in a different order, and the parse of the first completes, then
    so does the parse of the second, with the same mapping and the same
    logging configuration. *)
Theorem X11_entry_order_is_irrelevant {APIRouter : Type} (w : world)
    (settings1 settings2 : option (list N)) (m : gmap (list N) pyvalue)
    (p p1 : @process APIRouter) :
  candidate_entries settings1 ≡ₚ candidate_entries settings2 ->
  distinct_keys (candidate_entries settings1) ->
  parse_settings w settings1 p = (Ok m, p1) ->
  exists p2,
    parse_settings w settings2 p = (Ok m, p2) /\ logging p2 = logging p1.
Proof.
  intros Hperm Hd Hparse. unfold parse_settings in *.
  pose proof (parse_settings_list_trace w _ _ _ _ _ Hparse) as [Hlog1 _].
  pose proof (parse_settings_list_converts w _ _ _ _ _ Hparse) as Hall.
  destruct (parse_settings_list_update w _ ∅ p Hall) as (q & Hq & _).
  rewrite Hparse in Hq. injection Hq as Hm _.
  rewrite Hperm in Hall.
  destruct (parse_settings_list_update w _ ∅ p Hall) as (p2 & Hp2 & Hlog2).
  exists p2. split; [|congruence].
  rewrite Hp2, Hm. do 2 f_equal. symmetry.
  now apply foldl_entry_update_perm.
Qed.

Lemma X11_entry_order_is_irrelevant_witness :
  exists p2 : @process unit,
    parse_settings example_world (Some (lit "b=x,oops,a=1")) fresh_process =
      (Ok (<[ lit "b" := VStr (lit "x") ]> (<[ lit "a" := VInt 1 ]> ∅)), p2) /\
    logging p2 = logging fresh_process.
Proof.
  pose (p1 := {| logging := logging fresh_process;
                 trace := [invalid_setting_warning (lit "oops")] |}
              : @process unit).
  assert (Hperm : candidate_entries (Some (lit "a=1,oops,b=x")) ≡ₚ
                  candidate_entries (Some (lit "b=x,oops,a=1"))).
  { change ([lit "a=1"; lit "oops"; lit "b=x"] ≡ₚ
            [lit "b=x"; lit "oops"; lit "a=1"]).
    apply (Permutation_rev [lit "a=1"; lit "oops"; lit "b=x"]). }
  assert (Hd : distinct_keys (candidate_entries (Some (lit "a=1,oops,b=x")))).
  { change (distinct_keys [lit "a=1"; lit "oops"; lit "b=x"]).
    intros e1 e2 k1 v1 k2 v2 H1 H2.
    repeat (apply elem_of_cons in H1 as [->|H1]);
      try (apply elem_of_nil in H1; destruct H1);
      repeat (apply elem_of_cons in H2 as [->|H2]);
      try (apply elem_of_nil in H2; destruct H2);
      try reflexivity; try discriminate;
      intros _ _ [= <- <-] [= <- <-]; discriminate. }
  exact (X11_entry_order_is_irrelevant example_world
           (Some (lit "a=1,oops,b=x")) (Some (lit "b=x,oops,a=1"))
           (<[ lit "b" := VStr (lit "x") ]> (<[ lit "a" := VInt 1 ]> ∅))
           fresh_process p1 Hperm Hd eq_refl).
Defined.

(** * Where stored values come from *)

Lemma foldl_entry_update_lookup (w : world) (entries : list (list N))
    (d : gmap (list N) pyvalue) (key : list N) (x : pyvalue) :
  foldl (fun acc e => entry_update w e acc) d entries !! key = Some x ->
  d !! key = Some x \/
  exists e k v, e ∈ entries /\ well_formed e = true /\
                split1 EQUALS e = [k; v] /\ strip k = key /\
                coerce_value w v = Ok x.
Proof.
  revert d. induction entries as [|e entries IH]; intros d; cbn [foldl].
  - auto.
  - intros Hm. apply IH in Hm as [Hm|(e' & k & v & He' & Hrest)].
    + unfold entry_update in Hm.
      destruct (well_formed e) eqn:Hwf; [|auto].
      destruct (split1 EQUALS e) as [|k [|v [|? ?]]] eqn:Hs; auto.
      destruct (coerce_value w v) as [y| |] eqn:Hy; auto.
      destruct (decide (strip k = key)) as [Hk|Hk].
      * subst key. rewrite lookup_insert_eq in Hm. injection Hm as ->.
        right. exists e, k, v. repeat split; auto. apply elem_of_cons. auto.
      * rewrite lookup_insert_ne in Hm by exact Hk. auto.
    + right. exists e', k, v. split; [apply elem_of_cons; auto | exact Hrest].
Qed.

Lemma candidate_entries_no_comma (settings : option (list N)) :
  Forall (fun e => ~ COMMA ∈ e) (candidate_entries settings).
Proof.
  destruct settings as [s|]; [|constructor]. unfold candidate_entries.
  destruct (str_truthy s); [|constructor]. unfold settings_list.
  destruct (str_in (lit ",") s) eqn:Hin.
  - apply split_fields.
  - constructor; [|constructor]. now apply (str_in_char_false COMMA s).
Qed.

Lemma strip_elem (k : list N) (c : N) : c ∈ strip k -> c ∈ k.
Proof.
  intros Hc. destruct (strip_core k) as (ws1 & ws2 & Hk & _).
  rewrite Hk. set_solver.
Qed.

(** A value is stored as a string only when none of the three conversions
    takes it, and it is then stored as it stands. *)
Lemma coerce_value_string (w : world) (v s : list N) :
  coerce_value w v = Ok (VStr s) ->
  s = v /\ ~ lower v ∈ [lit "true"; lit "false"] /\ isdigit v = false /\
  py_float v = None.
Proof.
  unfold coerce_value. case_bool_decide as Hb; [discriminate|].
  destruct (isdigit v).
  - destruct (py_int (int_max_str_digits w) v); discriminate.
  - destruct (py_float v); [discriminate|]. intros [= <-]. auto.
Qed.

(** X12.  Whatever the parsed mapping holds under a key was written by an
    entry of the settings string: the key is the stripped text before that
    entry's first equals sign and the value is the conversion of the text
    after it.  Since the string is cut at every comma first, neither a key
    nor a value kept as a string can hold a comma; and a value is kept as a
    string, character for character, only if it is no boolean word, no digit
    string and nothing [float] accepts. *)
Theorem X12_stored_values_come_from_entries {APIRouter : Type} (w : world)
    (settings : option (list N)) (m : gmap (list N) pyvalue)
    (p p' : @process APIRouter) (key : list N) (x : pyvalue) :
  parse_settings w settings p = (Ok m, p') ->
  m !! key = Some x ->
  exists k v,
    (k ++ EQUALS :: v) ∈ candidate_entries settings /\
    ~ EQUALS ∈ k /\ strip k = key /\ coerce_value w v = Ok x /\
    ~ COMMA ∈ key /\ ~ COMMA ∈ v /\
    forall s, x = VStr s ->
      s = v /\ ~ COMMA ∈ s /\ ~ lower s ∈ [lit "true"; lit "false"] /\
      isdigit s = false /\ py_float s = None.
Proof.
  intros Hparse Hkey. unfold parse_settings in Hparse.
  pose proof (parse_settings_list_converts w _ _ _ _ _ Hparse) as Hall.
  destruct (parse_settings_list_update w _ ∅ p Hall) as (q & Hq & _).
  rewrite Hparse in Hq. injection Hq as Hm _. subst m.
  apply foldl_entry_update_lookup in Hkey
    as [Hkey|(e & k & v & He & Hwf & Hs & Hk & Hx)].
  { rewrite lookup_empty in Hkey. discriminate. }
  destruct (well_formed_unpack e Hwf) as (k' & v' & Heq & Hk' & Hs').
  rewrite Hs in Hs'. injection Hs' as <- <-. subst e.
  pose proof (candidate_entries_no_comma settings) as Hcomma.
  rewrite Forall_forall in Hcomma. specialize (Hcomma _ He).
  assert (Hck : ~ COMMA ∈ k) by set_solver.
  assert (Hcv : ~ COMMA ∈ v) by set_solver.
  exists k, v.
  split; [exact He|]. split; [exact Hk'|]. split; [exact Hk|].
  split; [exact Hx|]. split; [|split; [exact Hcv|]].
  - intros Hc. apply Hck. apply strip_elem. now rewrite Hk.
  - intros s ->. apply coerce_value_string in Hx as (-> & Hb & Hd & Hf). auto.
Qed.

Lemma X12_stored_values_come_from_entries_witness :
  exists k v,
    (k ++ EQUALS :: v) ∈ candidate_entries (Some (lit "HOSTS=a.org,b.org")) /\
    ~ EQUALS ∈ k /\ strip k = lit "HOSTS" /\
    coerce_value example_world v = Ok (VStr (lit "a.org")) /\
    ~ COMMA ∈ lit "HOSTS" /\ ~ COMMA ∈ v /\
    forall s, VStr (lit "a.org") = VStr s ->
      s = v /\ ~ COMMA ∈ s /\ ~ lower s ∈ [lit "true"; lit "false"] /\
      isdigit s = false /\ py_float s = None.
Proof.
  exact (X12_stored_values_come_from_entries (APIRouter := unit) example_world
           (Some (lit "HOSTS=a.org,b.org"))
           (<[ lit "HOSTS" := VStr (lit "a.org") ]> ∅)
           fresh_process
           {| logging := fresh_logging;
              trace := [invalid_setting_warning (lit "b.org")] |}
           (lit "HOSTS") (VStr (lit "a.org")) eq_refl eq_refl).
Defined.

(** * Building a settings string *)

Lemma split_app_sep (sep : N) (f rest : list N) :
  ~ sep ∈ f -> split sep (f ++ sep :: rest) = f :: split sep rest.
Proof.
  induction f as [|c f IH]; intros Hf; cbn [app split].
  - now rewrite N.eqb_refl.
  - destruct (c =? sep)%N eqn:Hc.
    + apply N.eqb_eq in Hc. subst c. exfalso. apply Hf. set_solver.
    + rewrite IH by set_solver. reflexivity.
Qed.

Lemma split_join (sep : N) (fields : list (list N)) :
  fields <> [] -> Forall (fun f => ~ sep ∈ f) fields ->
  split sep (join sep fields) = fields.
Proof.
  induction fields as [|f fields IH]; [congruence|]. intros _ Hall.
  apply Forall_cons in Hall as [Hf Hall].
  destruct fields as [|g fields].
  - cbn [join]. now apply split_without_separator.
  - change (join sep (f :: g :: fields)) with (f ++ sep :: join sep (g :: fields)).
    rewrite split_app_sep by exact Hf. f_equal. apply IH; [discriminate | exact Hall].
Qed.

(** X13.  Any list of entries can be handed over in one settings string:
    provided no entry holds a comma and the list is neither empty nor the one
    empty entry, joining the entries with commas gives a string whose parse
    visits exactly these entries, in this order.  (The two excluded lists
    both give the empty string, which has no entry.) *)
Theorem X13_joined_entries_are_parsed_back {APIRouter : Type} (w : world)
    (fields : list (list N)) (p : @process APIRouter) :
  fields <> [] -> fields <> [[]] ->
  Forall (fun f => ~ COMMA ∈ f) fields ->
  candidate_entries (Some (join COMMA fields)) = fields /\
  parse_settings w (Some (join COMMA fields)) p =
    parse_settings_list w ∅ fields p /\
  candidate_entries (Some (join COMMA [])) = [] /\
  candidate_entries (Some (join COMMA [[]])) = [].
Proof.
  intros Hne Hne1 Hall.
  assert (Hentries : candidate_entries (Some (join COMMA fields)) = fields).
  { unfold candidate_entries, settings_list.
    destruct fields as [|f [|g fields]]; [congruence| |].
    - cbn [join]. destruct f as [|c f]; [congruence|]. cbn [str_truthy].
      apply Forall_cons in Hall as [Hf _].
      apply (str_in_char_false COMMA) in Hf.
      change (lit ",") with [COMMA]. now rewrite Hf.
    - change (join COMMA (f :: g :: fields))
        with (f ++ COMMA :: join COMMA (g :: fields)).
      assert (Hin : COMMA ∈ f ++ COMMA :: join COMMA (g :: fields)) by set_solver.
      destruct (f ++ COMMA :: join COMMA (g :: fields)) as [|c s] eqn:Hs.
      { now apply elem_of_nil in Hin. }
      cbn [str_truthy]. apply (str_in_char COMMA) in Hin.
      change (lit ",") with [COMMA]. rewrite Hin, <- Hs.
      apply (split_join COMMA (f :: g :: fields)); [discriminate | exact Hall]. }
  split; [exact Hentries|]. split; [|split; reflexivity].
  unfold parse_settings. now rewrite Hentries.
Qed.

Lemma X13_joined_entries_are_parsed_back_witness :
  candidate_entries (Some (join COMMA [lit "A=1"; lit ""; lit "B =x=y"])) =
    [lit "A=1"; lit ""; lit "B =x=y"] /\
  parse_settings example_world
      (Some (join COMMA [lit "A=1"; lit ""; lit "B =x=y"])) fresh_process =
    parse_settings_list example_world ∅ [lit "A=1"; lit ""; lit "B =x=y"]
      fresh_process /\
  candidate_entries (Some (join COMMA [])) = [] /\
  candidate_entries (Some (join COMMA [[]])) = [].
Proof.
  apply (X13_joined_entries_are_parsed_back example_world
           [lit "A=1"; lit ""; lit "B =x=y"] fresh_process).
  - discriminate.
  - discriminate.
  - repeat constructor; vm_compute; intros H;
      repeat (apply elem_of_cons in H as [H|H]; [discriminate|]);
      now apply elem_of_nil in H.
Defined.

(** * Values that become floats *)

Lemma Py_TOLOWER_inv (c x : N) :
  (97 <= x <= 122)%N -> Py_TOLOWER c = x -> c = x \/ c = (x - 32)%N.
Proof.
  intros Hx. unfold Py_TOLOWER.
  destruct ((65 <=? c) && (c <=? 90))%N eqn:Hc; intros <-; [right | left]; lia.
Qed.

Lemma ascii_case_variants_complete (word value : list N) :
  Forall (fun x => (97 <= x <= 122)%N) word ->
  List.map Py_TOLOWER value = word ->
  In value (ascii_case_variants word).
Proof.
  intros Hword. revert value.
  induction Hword as [|x word Hx _ IH]; intros [|c value]; try discriminate.
  - intros _. now left.
  - cbn [List.map ascii_case_variants]. intros [= Hc Hrest].
    apply in_flat_map. exists value. split; [now apply IH|].
    destruct (Py_TOLOWER_inv c x Hx Hc) as [->| ->]; [now left | right; now left].
Qed.

Lemma stored_as_special_float_sound (w : world) (nan negative : bool) (value : list N) :
  stored_as_special_float nan negative value = true ->
  coerce_value w value =
    Ok (VFloat (if nan then S754_nan else S754_infinity negative)).
Proof.
  unfold stored_as_special_float, coerce_value. intros H.
  apply andb_true_iff in H as [H Hf]. apply andb_true_iff in H as [Hb Hd].
  apply negb_true_iff in Hb, Hd. rewrite Hb, Hd.
  destruct (py_float value) as [[s|s| |? ? ?]|]; try discriminate.
  - apply andb_true_iff in Hf as [Hn Hs]. apply negb_true_iff in Hn.
    apply eqb_prop in Hs. now subst.
  - now subst.
Qed.

(** X15.  The words [inf], [infinity] and [nan], in any mix of ASCII upper
    and lower case and with an optional sign in front, are stored as floats,
    not as strings: the infinities with the sign given, and the one NaN. *)
Theorem X15_infinity_and_nan_words_are_floats (w : world) (sign word : list N) :
  sign ∈ [lit ""; lit "+"; lit "-"] ->
  List.map Py_TOLOWER word ∈ [lit "inf"; lit "infinity"; lit "nan"] ->
  coerce_value w (sign ++ word) =
    Ok (VFloat (if bool_decide (List.map Py_TOLOWER word = lit "nan")
                then S754_nan
                else S754_infinity (bool_decide (sign = lit "-")))).
Proof.
  intros Hsign Hword.
  assert (Hall : forall nan negative s t,
            forallb (fun v => stored_as_special_float nan negative (s ++ v))
              (ascii_case_variants t) = true ->
            Forall (fun x => (97 <= x <= 122)%N) t ->
            List.map Py_TOLOWER word = t ->
            coerce_value w (s ++ word) =
              Ok (VFloat (if nan then S754_nan else S754_infinity negative))).
  { intros nan negative s t Hcheck Ht Hlow.
    apply stored_as_special_float_sound.
    rewrite forallb_forall in Hcheck. apply Hcheck.
    now apply ascii_case_variants_complete. }
  repeat (apply elem_of_cons in Hsign as [->|Hsign]);
    [| | | now apply elem_of_nil in Hsign];
    (repeat (apply elem_of_cons in Hword as [Hword|Hword]);
     [| | | now apply elem_of_nil in Hword];
     match goal with
     | Hw : List.map Py_TOLOWER word = ?t |- coerce_value w (?s ++ word) = _ =>
         rewrite Hw;
         let n := eval vm_compute in (bool_decide (t = lit "nan")) in
         let g := eval vm_compute in (bool_decide (s = lit "-")) in
         change (coerce_value w (s ++ word) =
                 Ok (VFloat (if n then S754_nan else S754_infinity g)));
         apply (Hall n g s t);
           [vm_compute; reflexivity
           | repeat constructor; vm_compute; discriminate
           | exact Hw]
     end).
Qed.

Lemma X15_infinity_and_nan_words_are_floats_witness :
  coerce_value example_world (lit "-" ++ lit "Infinity") =
    Ok (VFloat (S754_infinity true)).
Proof.
  apply (X15_infinity_and_nan_words_are_floats example_world (lit "-") (lit "Infinity")).
  - apply elem_of_cons. right. apply elem_of_cons. right. apply elem_of_cons. now left.
  - apply elem_of_cons. right. apply elem_of_cons. now left.
Defined.

Lemma lower_boolean_word (v : list N) :
  lower v ∈ [lit "true"; lit "false"] ->
  List.map Py_TOLOWER v = lit "true" \/ List.map Py_TOLOWER v = lit "false".
Proof.
  assert (Htrue : Forall (fun x => x ∈ boolean_letters) (lit "true")).
  { apply Forall_forall. intros x Hx. apply list_elem_of_In.
    apply list_elem_of_In in Hx. vm_compute in Hx |- *. intuition. }
  assert (Hfalse : Forall (fun x => x ∈ boolean_letters) (lit "false")).
  { apply Forall_forall. intros x Hx. apply list_elem_of_In.
    apply list_elem_of_In in Hx. vm_compute in Hx |- *. intuition. }
  intros Hin. apply elem_of_cons in Hin as [Hl|Hl].
  - left. now apply (lower_from_boolean_word _ Htrue [] v).
  - right. apply list_elem_of_singleton in Hl.
    now apply (lower_from_boolean_word _ Hfalse [] v).
Qed.

(** [float] on a sign and a run of ASCII digits. *)
Lemma py_float_signed_digits (negative : bool) (digits : list N) :
  digits <> [] ->
  Forall (fun c => Py_ISDIGIT c = true) digits ->
  Z.of_nat (length digits) <= MAX_DIGITS ->
  py_float ((if negative then 45%N else 43%N) :: digits) =
    Some (float_of_decimal negative (digits_value digits) 0).
Proof.
  intros Hne Hds Hlen. set (sign := if negative then 45%N else 43%N).
  assert (Hsign : (sign <? 128)%N = true /\ sign <> 95%N /\
                  Py_ISSPACE sign = false /\
                  parse_sign (sign :: digits) = (negative, digits)).
  { unfold sign. destruct negative; repeat split; discriminate. }
  destruct Hsign as (Hs128 & Hs95 & Hssp & Hparse).
  assert (Hfacts : forall c, c ∈ sign :: digits ->
            (c <? 128)%N = true /\ c <> 95%N /\ Py_ISSPACE c = false).
  { intros c Hc. apply elem_of_cons in Hc as [->|Hc]; [auto|].
    rewrite Forall_forall in Hds.
    destruct (ascii_digit_facts c (Hds c Hc)) as (Hd & _ & ? & Hsame).
    destruct (digit_facts c Hd) as (_ & _ & _ & _ & _ & _ & H95 & _ & _ & Hsp & _).
    rewrite Hsame in H95, Hsp. auto. }
  unfold py_float.
  assert (Hascii : forallb (fun c => (c <? 128)%N) (sign :: digits) = true).
  { apply forallb_forall. intros c Hc. now apply Hfacts, list_elem_of_In. }
  unfold TransformDecimalAndSpaceToASCII. rewrite Hascii.
  assert (Hunder : str_in [95%N]
            (take_while (fun c => negb (c =? 0)%N) (sign :: digits)) = false).
  { apply str_in_char_false. intros Hin. apply take_while_elem in Hin.
    now apply Hfacts in Hin as (_ & Hin & _). }
  rewrite Hunder. cbn [drop_while]. rewrite Hssp.
  rewrite (drop_while_none Py_ISSPACE (rev (sign :: digits))).
  2:{ apply Forall_forall. intros y Hy. apply Hfacts.
      apply list_elem_of_In. apply list_elem_of_In in Hy. now apply in_rev. }
  rewrite rev_involutive.
  unfold PyOS_string_to_double, Py_dg_strtod. rewrite Hparse.
  assert (Hall : forallb Py_ISDIGIT digits = true).
  { apply forallb_forall. intros y Hy. rewrite Forall_forall in Hds.
    now apply Hds, list_elem_of_In. }
  rewrite (take_while_all _ _ Hall), (drop_while_whole _ _ Hds).
  rewrite app_nil_r.
  assert (Hcount : (MAX_DIGITS <? Z.of_nat (length (drop_while is_zero_digit digits)))
                   || (MAX_DIGITS <? Z.of_nat (@length N [])) = false).
  { apply orb_false_iff. split; apply Z.ltb_ge.
    - assert (length (drop_while is_zero_digit digits) <= length digits)%nat.
      { clear. induction digits as [|y l IH]; [reflexivity|]. cbn [drop_while].
        destruct (is_zero_digit y); [cbn [length]; lia | reflexivity]. }
      lia.
    - unfold MAX_DIGITS. cbn [length]. lia. }
  rewrite Hcount. destruct digits as [|c ds] eqn:Hdigits; [congruence|].
  cbn [parse_exponent length]. now rewrite Z.sub_0_r.
Qed.

(** X16.  A sign makes an integer a float: a plus or minus sign followed by a
    run of ASCII digits is stored as the binary64 value nearest to the signed
    integer, never as an integer; when the digits are all zeros the float is
    the zero of that sign, so a minus sign gives the negative zero. *)
Theorem X16_signed_integer_is_a_float (w : world) (negative : bool)
    (digits : list N) :
  digits <> [] ->
  Forall (fun c => Py_ISDIGIT c = true) digits ->
  Z.of_nat (length digits) <= MAX_DIGITS ->
  let n := digits_value digits in
  coerce_value w ((if negative then 45%N else 43%N) :: digits) =
    Ok (VFloat (if n =? 0 then S754_zero negative
                else dyadic (if negative then - n else n) 0)).
Proof.
  intros Hne Hds Hlen n. set (sign := if negative then 45%N else 43%N).
  assert (Hsign : Py_TOLOWER sign <> 116%N /\ Py_TOLOWER sign <> 102%N /\
                  Unicode.isdigit sign = false).
  { unfold sign. destruct negative; repeat split; vm_compute; discriminate. }
  destruct Hsign as (Ht & Hf & Hd).
  unfold coerce_value. rewrite bool_decide_eq_false_2.
  2:{ intros Hin. apply lower_boolean_word in Hin as [Hin|Hin];
        cbn [List.map] in Hin; injection Hin as Hin _; contradiction. }
  unfold isdigit. cbn [forallb]. rewrite Hd. cbn [andb]. fold sign.
  unfold sign. rewrite (py_float_signed_digits negative digits Hne Hds Hlen).
  fold n. do 2 f_equal.
  pose proof (digits_value_nonneg digits Hds) as Hn. fold n in Hn.
  unfold float_of_decimal, dyadic, binary_normalize.
  destruct n as [|q|q]; [reflexivity | | lia].
  cbn [Z.eqb Z.leb Z.compare]. rewrite Pos.mul_1_r. now destruct negative.
Qed.

Lemma X16_signed_integer_is_a_float_witness :
  coerce_value example_world (lit "-0") = Ok (VFloat (S754_zero true)).
Proof.
  apply (X16_signed_integer_is_a_float example_world true (lit "0")).
  - discriminate.
  - repeat constructor.
  - vm_compute. discriminate.
Defined.

(** * What [run] lets the outside see *)

(** X14.  [run] asks for the routes and calls the server only after the
    validation: when the settings loop raises, when the working directory
    cannot be had, or when the project path is no directory, all it adds to
    what happened before is a sequence of log lines.  When the validation
    passes it adds log lines and then, at the very end, one call of the route
    factory followed, the factory having returned its routes, by one call of
    the server.  However the run ends, what happened before it is kept. *)
Theorem X14_no_server_before_validation {APIRouter : Type}
    (create_router : option (list N) -> option float ->
                     option (gmap (list N) pyvalue) -> bool -> bool -> APIRouter)
    (uvicorn : @FastAPI APIRouter -> list N -> Z -> list N -> logging_state ->
               outcome unit * logging_state)
    (w : world) (o : options) (p : @process APIRouter) :
  let parsed := parse_settings w (opt_settings o) (configured (opt_debug o) p) in
  exists logs,
    Forall (fun ev => is_logged ev = true) logs /\
    trace (run create_router uvicorn w o p).2 =
      trace p ++ logs ++
      match parsed.1, project_path w (opt_project o) with
      | Ok d, Returns path =>
          if isdir w path then startup_calls create_router o path d else []
      | _, _ => []
      end.
Proof.
  intros parsed.
  destruct (parse_settings_list_only_logs w
              (candidate_entries (opt_settings o)) ∅ (configured (opt_debug o) p))
    as (logs & Hlogs & Heq).
  fold (parse_settings w (opt_settings o) (configured (opt_debug o) p)) in Heq.
  fold parsed in Heq.
  destruct parsed as [[d| |] p1] eqn:Hparse; unfold parsed in Hparse;
    cbn [fst snd] in *; subst p1.
  - rewrite (run_after_settings create_router uvicorn w o p d _ Hparse).
    cbn [trace configured].
    destruct (project_path w (opt_project o)) as [path|e].
    + destruct (isdir w path); cbn [fst snd trace].
      * exists (logs ++ startup_logs o path d). split.
        -- apply Forall_app. split; [exact Hlogs | apply startup_logs_logged].
        -- now rewrite <- !app_assoc.
      * exists (logs ++ [missing_project_error path]). split.
        -- apply Forall_app. split; [exact Hlogs|]. now constructor.
        -- now rewrite <- !app_assoc, app_nil_r.
    + exists logs. split; [exact Hlogs|]. cbn [snd trace]. now rewrite app_nil_r.
  - exfalso. unfold parse_settings in Hparse.
    now apply parse_settings_list_never_exits in Hparse.
  - rewrite (run_after_failed_settings create_router uvicorn w o p _ e Hparse).
    exists logs. split; [exact Hlogs|]. cbn [snd trace]. now rewrite app_nil_r.
Qed.
